(** * Money-trail graph engine of PoliticalDonorTracker

    Shallow embedding of [src/unnamed/part_007] (path finder and graph
    analytics) and of the empty-input path of the [useForceLayout] hook
    ([src/src/components/d3/useForceLayout.ts], [src/unnamed/part_005]).

    Modelling choices:
    - node and link ids are strings, compared with [String.eqb] ([===]);
    - JavaScript [Map]s keyed by id are stdpp [gmap]s; a [Map] whose
      insertion order is observed (the recipient map) is an association
      list;
    - amounts ([number]) are integers [Z]; [link.amount || 0] is
      [amount_or_zero];
    - optional fields ([?:]) are [option]s;
    - [Array.prototype.sort] with the comparator [b.x - a.x] is the stable
      insertion sort [sort_desc] (ECMAScript requires a stable sort, so the
      result is determined by the comparator);
    - the [while (queue.length > 0)] loop of [findPaths] is [bfs], run with
      a fuel that is proved sufficient ([bfs_members]). *)

From Stdlib Require Import ZArith QArith String List Sorting.Sorted Lia.
From stdpp Require Import base list gmap strings.

Open Scope Z_scope.

(* ------------------------------------------------------------------ *)
(** ** Data model ([src/unnamed/part_006]) *)

Inductive NodeType := donor | media | foundation | pac | shell_org | politician.

#[global] Instance NodeType_eq_dec : EqDecision NodeType.
Proof. solve_decision. Defined.

Record NetworkNode := {
  nd_id : string;
  nd_name : string;
  nd_type : NodeType;
  nd_boardMembers : option (list string)
}.

Record NetworkLink := {
  lk_source : string;
  lk_target : string;
  lk_relationship : string;
  lk_amount : option Z
}.

Record DonorMediaNetwork := {
  nw_nodes : list NetworkNode;
  nw_links : list NetworkLink
}.

Record MoneyPath := {
  mp_nodes : list NetworkNode;
  mp_links : list NetworkLink;
  mp_totalAmount : Z;
  mp_hopCount : nat
}.

Record PathFinderOptions := {
  po_maxHops : Z;
  po_includeIntermediaries : bool;
  po_filterByRelationship : option (list string);
  po_filterByNodeType : option (list NodeType)
}.

(** [link.amount || 0] *)
Definition amount_or_zero (l : NetworkLink) : Z :=
  match lk_amount l with Some a => a | None => 0 end.

(* ------------------------------------------------------------------ *)
(** ** Stable sort by a numeric key, descending *)

Section StableSort.
Context {A : Type} (key : A -> Z).

(** Inserts [x] after every element whose key is [>=] its own. *)
Fixpoint insert_desc (x : A) (l : list A) : list A :=
  match l with
  | [] => [x]
  | y :: r => if key y <? key x then x :: l else y :: insert_desc x r
  end.

Definition sort_desc (l : list A) : list A :=
  fold_left (fun acc x => insert_desc x acc) l [].

(** The order [sort_desc] establishes: keys non-increasing. *)
Definition amount_desc (a b : A) : Prop := key b <= key a.
End StableSort.

(* ------------------------------------------------------------------ *)
(** ** Adjacency index ([buildAdjacencyMap]) *)

Record AdjEntry := { ae_targetId : string; ae_link : NetworkLink }.

(** [filterByRelationship && !filterByRelationship.includes(link.relationship)]
    decides that the link is skipped. *)
Definition relationship_allowed (filterByRelationship : option (list string))
    (link : NetworkLink) : bool :=
  match filterByRelationship with
  | Some rs => bool_decide (lk_relationship link ∈ rs)
  | None => true
  end.

(** [if (!map.has(k)) map.set(k, []); map.get(k)!.push(e)] *)
Definition adj_push (k : string) (e : AdjEntry)
    (m : gmap string (list AdjEntry)) : gmap string (list AdjEntry) :=
  <[k := default [] (m !! k) ++ [e]]> m.

Definition adj_add_link (filterByRelationship : option (list string))
    (m : gmap string (list AdjEntry)) (link : NetworkLink) : gmap string (list AdjEntry) :=
  if relationship_allowed filterByRelationship link then
    let sourceId := lk_source link in
    let targetId := lk_target link in
    adj_push targetId {| ae_targetId := sourceId; ae_link := link |}
      (adj_push sourceId {| ae_targetId := targetId; ae_link := link |} m)
  else m.

Definition buildAdjacencyMap (network : DonorMediaNetwork)
    (filterByRelationship : option (list string)) : gmap string (list AdjEntry) :=
  fold_left (adj_add_link filterByRelationship) (nw_links network) ∅.

(** The entries one link contributes to the list of node [x]: forward
    when [x] is its source, reverse when [x] is its target. *)
Definition link_entries (x : string) (link : NetworkLink) : list AdjEntry :=
  (if String.eqb (lk_source link) x
   then [{| ae_targetId := lk_target link; ae_link := link |}] else []) ++
  (if String.eqb (lk_target link) x
   then [{| ae_targetId := lk_source link; ae_link := link |}] else []).

Definition adjacent_entries (links : list NetworkLink)
    (filterByRelationship : option (list string)) (x : string) : list AdjEntry :=
  flat_map (link_entries x) (List.filter (relationship_allowed filterByRelationship) links).

(* ------------------------------------------------------------------ *)
(** ** Node map ([new Map(network.nodes.map(n => [n.id, n]))]) *)

(** Later nodes with the same id overwrite earlier ones, as in [new Map]. *)
Definition node_map (nodes : list NetworkNode) : gmap string NetworkNode :=
  fold_left (fun m n => <[nd_id n := n]> m) nodes ∅.

(** [ids.map(id => nodeMap.get(id)!).filter(Boolean)] *)
Fixpoint present_nodes (nodeMap : gmap string NetworkNode) (ids : list string)
    : list NetworkNode :=
  match ids with
  | [] => []
  | id :: rest =>
      match nodeMap !! id with
      | Some n => n :: present_nodes nodeMap rest
      | None => present_nodes nodeMap rest
      end
  end.

(* ------------------------------------------------------------------ *)
(** ** Path finder ([findPaths]) *)

Record QueueItem := {
  qi_nodeId : string;
  qi_nodePath : list string;
  qi_linkPath : list NetworkLink;
  qi_totalAmount : Z
}.

(** JavaScript truthiness of [endId : string | null]. *)
Definition endId_truthy (endId : option string) : bool :=
  match endId with Some e => negb (String.eqb e "") | None => false end.

(** [endId && current.nodeId === endId] *)
Definition reached_end (endId : option string) (nodeId : string) : bool :=
  match endId with
  | Some e => negb (String.eqb e "") && String.eqb nodeId e
  | None => false
  end.

Section PathFinder.
Variable adjacencyMap : gmap string (list AdjEntry).
Variable nodeMap : gmap string NetworkNode.
Variable options : PathFinderOptions.
Variable endId : option string.

Definition to_path (current : QueueItem) : MoneyPath :=
  {| mp_nodes := present_nodes nodeMap (qi_nodePath current);
     mp_links := qi_linkPath current;
     mp_totalAmount := qi_totalAmount current;
     mp_hopCount := length (qi_linkPath current) |}.

(** The body of the [for (const { targetId, link } of adjacent)] loop:
    whether the neighbour is pushed. *)
Definition neighbour_admitted (current : QueueItem) (e : AdjEntry) : bool :=
  if bool_decide (ae_targetId e ∈ qi_nodePath current) then false
  else
    match po_filterByNodeType options, nodeMap !! ae_targetId e with
    | Some types, Some targetNode => bool_decide (nd_type targetNode ∈ types)
    | _, _ => true
    end.

Definition extend (current : QueueItem) (e : AdjEntry) : QueueItem :=
  {| qi_nodeId := ae_targetId e;
     qi_nodePath := qi_nodePath current ++ [ae_targetId e];
     qi_linkPath := qi_linkPath current ++ [ae_link e];
     qi_totalAmount := qi_totalAmount current + amount_or_zero (ae_link e) |}.

Definition successors (current : QueueItem) : list QueueItem :=
  map (extend current)
    (List.filter (neighbour_admitted current)
       (default [] (adjacencyMap !! qi_nodeId current))).

(** One iteration of the [while] loop on the dequeued item: the paths it
    pushes to [paths] and the items it pushes to [queue]. *)
Definition step (current : QueueItem) : list MoneyPath * list QueueItem :=
  let len := length (qi_nodePath current) in
  if bool_decide (po_maxHops options + 1 < Z.of_nat len) then ([], [])
  else if reached_end endId (qi_nodeId current) && (1 <? len)%nat
  then ([to_path current], [])
  else ((if negb (endId_truthy endId) && (1 <? len)%nat
         then [to_path current] else []),
        successors current).

Fixpoint bfs (fuel : nat) (queue : list QueueItem) (paths : list MoneyPath)
    : list MoneyPath :=
  match fuel, queue with
  | S fuel', current :: rest =>
      let '(found, next) := step current in
      bfs fuel' (rest ++ next) (paths ++ found)
  | _, _ => paths
  end.
End PathFinder.

(** Termination measure of the loop: an item whose path has [len] nodes
    weighs [base ^ (depth - len)]; [base] exceeds the number of items one
    iteration can push. *)
Definition hop_base (network : DonorMediaNetwork) : nat :=
  S (2 * length (nw_links network)).

Definition hop_depth (options : PathFinderOptions) : nat :=
  Z.to_nat (po_maxHops options + 2).

Definition item_weight (base depth : nat) (it : QueueItem) : nat :=
  base ^ (depth - length (qi_nodePath it)).

Definition queue_measure (base depth : nat) (q : list QueueItem) : nat :=
  sum_list_with (item_weight base depth) q.

Definition start_item (startId : string) : QueueItem :=
  {| qi_nodeId := startId; qi_nodePath := [startId]; qi_linkPath := [];
     qi_totalAmount := 0 |}.

Definition findPaths (network : DonorMediaNetwork) (startId : string)
    (endId : option string) (options : PathFinderOptions) : list MoneyPath :=
  let adjacencyMap := buildAdjacencyMap network (po_filterByRelationship options) in
  let nodeMap := node_map (nw_nodes network) in
  let queue := [start_item startId] in
  let fuel := S (queue_measure (hop_base network) (hop_depth options) queue) in
  sort_desc mp_totalAmount (bfs adjacencyMap nodeMap options endId fuel queue []).

(** Items dequeued after [it]: [it] itself and everything its iteration
    pushes, transitively. *)
Section Descends.
Variable adjacencyMap : gmap string (list AdjEntry).
Variable nodeMap : gmap string NetworkNode.
Variable options : PathFinderOptions.
Variable endId : option string.

Inductive descends : QueueItem -> QueueItem -> Prop :=
| descends_here it : descends it it
| descends_next it c j :
    In c (snd (step adjacencyMap nodeMap options endId it)) ->
    descends c j -> descends it j.
End Descends.

(** Shape of every queue item of a search from [startId]. *)
Definition item_ok (startId : string) (it : QueueItem) : Prop :=
  (exists rest, qi_nodePath it = startId :: rest) /\
  last (qi_nodePath it) = Some (qi_nodeId it) /\
  NoDup (qi_nodePath it) /\
  length (qi_nodePath it) = S (length (qi_linkPath it)).

(* ------------------------------------------------------------------ *)
(** ** Graph analytics *)

Record DirectConnections := {
  dc_incoming : list NetworkLink;
  dc_outgoing : list NetworkLink
}.

Definition getDirectConnections (network : DonorMediaNetwork) (nodeId : string)
    : DirectConnections :=
  {| dc_incoming := List.filter (fun l => String.eqb (lk_target l) nodeId) (nw_links network);
     dc_outgoing := List.filter (fun l => String.eqb (lk_source l) nodeId) (nw_links network) |}.

(** [connectedNodeTypes[t] = (connectedNodeTypes[t] || 0) + 1] on a
    record whose keys keep their insertion order. *)
Fixpoint bump_type (t : NodeType) (counts : list (NodeType * nat)) : list (NodeType * nat) :=
  match counts with
  | [] => [(t, 1%nat)]
  | (t', c) :: rest =>
      if decide (t' = t) then (t', S c) :: rest else (t', c) :: bump_type t rest
  end.

Record NodeStats := {
  ns_incomingCount : nat;
  ns_outgoingCount : nat;
  ns_totalFundingReceived : Z;
  ns_totalFundingGiven : Z;
  ns_connectedNodeTypes : list (NodeType * nat)
}.

(** [links.reduce((sum, l) => sum + (l.amount || 0), 0)] *)
Definition sum_amounts (links : list NetworkLink) : Z :=
  fold_left (fun sum l => sum + amount_or_zero l) links 0.

Definition getNodeStats (network : DonorMediaNetwork) (nodeId : string) : NodeStats :=
  let dc := getDirectConnections network nodeId in
  let nodeMap := node_map (nw_nodes network) in
  let count_end (counts : list (NodeType * nat)) (otherId : string) :=
    match nodeMap !! otherId with
    | Some n => bump_type (nd_type n) counts
    | None => counts
    end in
  let afterIncoming :=
    fold_left (fun c l => count_end c (lk_source l)) (dc_incoming dc) [] in
  let connectedNodeTypes :=
    fold_left (fun c l => count_end c (lk_target l)) (dc_outgoing dc) afterIncoming in
  {| ns_incomingCount := length (dc_incoming dc);
     ns_outgoingCount := length (dc_outgoing dc);
     ns_totalFundingReceived := sum_amounts (dc_incoming dc);
     ns_totalFundingGiven := sum_amounts (dc_outgoing dc);
     ns_connectedNodeTypes := connectedNodeTypes |}.

(** [Math.abs(received - given) < received * 0.2], exactly, in [Q]. *)
Definition balanced_flow (received given : Z) : bool :=
  if Qlt_le_dec (inject_Z (Z.abs (received - given))) (inject_Z received * (2 # 10))
  then true else false.

Definition is_shell_candidate (network : DonorMediaNetwork) (node : NetworkNode) : bool :=
  if negb (bool_decide (nd_type node = foundation)) &&
     negb (bool_decide (nd_type node = shell_org)) then false
  else
    let stats := getNodeStats network (nd_id node) in
    (1 <=? ns_incomingCount stats)%nat &&
    (2 <=? ns_outgoingCount stats)%nat &&
    balanced_flow (ns_totalFundingReceived stats) (ns_totalFundingGiven stats).

Definition identifyShellOrgs (network : DonorMediaNetwork) : list NetworkNode :=
  List.filter (is_shell_candidate network) (nw_nodes network).

Definition findSharedBoardMembers (nodeA nodeB : NetworkNode) : list string :=
  match nd_boardMembers nodeA, nd_boardMembers nodeB with
  | Some membersA, Some membersB =>
      let setA : gset string := list_to_set membersA in
      List.filter (fun member => bool_decide (member ∈ setA)) membersB
  | _, _ => []
  end.

(** *** Downstream recipients *)

Record Recipient := {
  rc_node : NetworkNode;
  rc_totalAmount : Z;
  rc_pathCount : nat
}.

(** The recipient [Map], in insertion order. *)
Fixpoint assoc_find (k : string) (m : list (string * Recipient)) : option Recipient :=
  match m with
  | [] => None
  | (k', v) :: rest => if String.eqb k' k then Some v else assoc_find k rest
  end.

Fixpoint assoc_update (k : string) (f : Recipient -> Recipient)
    (m : list (string * Recipient)) : list (string * Recipient) :=
  match m with
  | [] => []
  | (k', v) :: rest =>
      if String.eqb k' k then (k', f v) :: rest else (k', v) :: assoc_update k f rest
  end.

Definition add_to_recipient (amount : Z) (existing : Recipient) : Recipient :=
  {| rc_node := rc_node existing;
     rc_totalAmount := rc_totalAmount existing + amount;
     rc_pathCount := S (rc_pathCount existing) |}.

(** One iteration of [for (const path of paths)]; [None] when
    [path.nodes] is empty, where reading [endNode.id] throws. *)
Definition add_path (sourceId : string) (m : list (string * Recipient)) (path : MoneyPath)
    : option (list (string * Recipient)) :=
  match last (mp_nodes path) with
  | None => None
  | Some endNode =>
      if String.eqb (nd_id endNode) sourceId then Some m
      else
        match assoc_find (nd_id endNode) m with
        | Some _ => Some (assoc_update (nd_id endNode) (add_to_recipient (mp_totalAmount path)) m)
        | None =>
            Some (m ++ [(nd_id endNode,
                         {| rc_node := endNode; rc_totalAmount := mp_totalAmount path;
                            rc_pathCount := 1 |})])
        end
  end.

Fixpoint group_recipients (sourceId : string) (paths : list MoneyPath)
    (m : list (string * Recipient)) : option (list (string * Recipient)) :=
  match paths with
  | [] => Some m
  | path :: rest =>
      match add_path sourceId m path with
      | Some m' => group_recipients sourceId rest m'
      | None => None
      end
  end.

Definition downstream_options (maxHops : Z) : PathFinderOptions :=
  {| po_maxHops := maxHops; po_includeIntermediaries := true;
     po_filterByRelationship := None; po_filterByNodeType := None |}.

(** [None] stands for the [TypeError] thrown on a path with no resolved node. *)
Definition getDownstreamRecipients (network : DonorMediaNetwork) (sourceId : string)
    (maxHops : Z) : option (list Recipient) :=
  let paths := findPaths network sourceId None (downstream_options maxHops) in
  match group_recipients sourceId paths [] with
  | Some m => Some (sort_desc rc_totalAmount (map snd m))
  | None => None
  end.

(** Terminal node of a returned path, as [getDownstreamRecipients] reads it. *)
Definition ends_at (r : string) (p : MoneyPath) : bool :=
  match last (mp_nodes p) with Some n => String.eqb (nd_id n) r | None => false end.

Definition paths_total (ps : list MoneyPath) : Z :=
  fold_right (fun p acc => mp_totalAmount p + acc) 0 ps.

(** Count and total the recipient map holds for an id, [0] when absent. *)
Definition recipient_count (o : option Recipient) : nat :=
  match o with Some e => rc_pathCount e | None => O end.

Definition recipient_total (o : option Recipient) : Z :=
  match o with Some e => rc_totalAmount e | None => 0 end.

(** Shape of the recipient map: one entry per key, keyed by its node's id,
    never the source. *)
Definition keys_ok (sourceId : string) (m : list (string * Recipient)) : Prop :=
  NoDup (map fst m) /\
  forall k v, In (k, v) m -> nd_id (rc_node v) = k /\ k <> sourceId.

(* ------------------------------------------------------------------ *)
(** ** Walks of the adjacency index *)

(** A walk from [x] over the adjacency lists of [links] under the
    relationship filter [f]: each step is an entry of the current node's list. *)
Fixpoint walk_from (links : list NetworkLink) (f : option (list string)) (x : string)
    (steps : list AdjEntry) : Prop :=
  match steps with
  | [] => True
  | e :: rest => In e (adjacent_entries links f x) /\ walk_from links f (ae_targetId e) rest
  end.

(** The node a walk from [x] ends at. *)
Fixpoint walk_end (x : string) (steps : list AdjEntry) : string :=
  match steps with
  | [] => x
  | e :: rest => walk_end (ae_targetId e) rest
  end.

(** The node-type check of [findPaths] on the entry [e]: a target with no
    node, or no type filter, passes. *)
Definition type_admitted (nodeMap : gmap string NetworkNode)
    (filterByNodeType : option (list NodeType)) (e : AdjEntry) : Prop :=
  match filterByNodeType, nodeMap !! ae_targetId e with
  | Some types, Some targetNode => nd_type targetNode ∈ types
  | _, _ => True
  end.

(** [links] joins the consecutive ids of [ids], each link in either direction. *)
Fixpoint links_join (ids : list string) (links : list NetworkLink) : Prop :=
  match ids, links with
  | a :: ((b :: _) as rest), l :: ls =>
      ((lk_source l = a /\ lk_target l = b) \/ (lk_target l = a /\ lk_source l = b)) /\
      links_join rest ls
  | [_], [] => True
  | _, _ => False
  end.

(* ------------------------------------------------------------------ *)
(** ** Intermediaries ([findIntermediaries]) *)

(** [ids.add(g(x))] for every [x] of [l], into [acc]. *)
Definition add_all {A} (g : A -> string) (l : list A) (acc : gset string) : gset string :=
  fold_left (fun acc x => {[g x]} ∪ acc) l acc.

(** The ids of [path.nodes[i]] for [1 <= i < path.nodes.length - 1]. *)
Definition inner_ids (path : MoneyPath) : list string :=
  map nd_id (removelast (tail (mp_nodes path))).

(** [findIntermediaries] ([src/unnamed/part_007]); [maxHops] has the
    default [3] at the call sites. *)
Definition findIntermediaries (network : DonorMediaNetwork) (startId endId : string)
    (maxHops : Z) : list NetworkNode :=
  let paths := findPaths network startId (Some endId) (downstream_options maxHops) in
  let intermediaryIds := fold_left (fun acc path => add_all id (inner_ids path) acc) paths ∅ in
  List.filter (fun n => bool_decide (nd_id n ∈ intermediaryIds)) (nw_nodes network).

(* ------------------------------------------------------------------ *)
(** ** Node statistics by type ([getNodeStats]) *)

(** The count stored under a type in [connectedNodeTypes] ([0] when absent). *)
Fixpoint type_count (counts : list (NodeType * nat)) (t : NodeType) : nat :=
  match counts with
  | [] => 0
  | (t', c) :: rest => if decide (t' = t) then c else type_count rest t
  end.

(** [nodeMap.get(id)] exists and has type [t]. *)
Definition has_type (network : DonorMediaNetwork) (id : string) (t : NodeType) : bool :=
  match node_map (nw_nodes network) !! id with
  | Some n => bool_decide (nd_type n = t)
  | None => false
  end.

(* ------------------------------------------------------------------ *)
(** ** Money trail explorer ([src/src/components/tabs/FeedTab.tsx]) *)

(** The selection state of [MoneyTrailExplorer]
    ([src/src/components/tabs/FeedTab.tsx]). *)
Record FeedSelection := {
  fs_startEntity : option string;
  fs_endEntity : option string;
  fs_maxHops : Z;
  fs_includeIntermediaries : bool;
  fs_filterRelationships : list string;
  fs_filterNodeTypes : list NodeType
}.

(** [`${sourceId}-${targetId}`] *)
Definition link_key (l : NetworkLink) : string :=
  (lk_source l ++ "-" ++ lk_target l)%string.

(** The relationship and node-type filters of [displayNetwork]. *)
Definition feed_filtered (data : DonorMediaNetwork) (sel : FeedSelection) : DonorMediaNetwork :=
  let links :=
    if bool_decide (fs_filterRelationships sel = []) then nw_links data
    else List.filter (fun l => bool_decide (lk_relationship l ∈ fs_filterRelationships sel))
           (nw_links data) in
  if bool_decide (fs_filterNodeTypes sel = []) then {| nw_nodes := nw_nodes data; nw_links := links |}
  else
    let nodes := List.filter (fun n => bool_decide (nd_type n ∈ fs_filterNodeTypes sel))
                   (nw_nodes data) in
    let nodeIds : gset string := list_to_set (map nd_id nodes) in
    {| nw_nodes := nodes;
       nw_links := List.filter (fun l => bool_decide (lk_source l ∈ nodeIds) &&
                                         bool_decide (lk_target l ∈ nodeIds)) links |}.

(** The options [displayNetwork] passes to [findPaths]. *)
Definition feed_path_options (sel : FeedSelection) : PathFinderOptions :=
  {| po_maxHops := fs_maxHops sel; po_includeIntermediaries := fs_includeIntermediaries sel;
     po_filterByRelationship :=
       if bool_decide (fs_filterRelationships sel = []) then None
       else Some (fs_filterRelationships sel);
     po_filterByNodeType := None |}.

(** [displayNetwork]: the filtered network, cut down to the nodes and
    link keys of the paths from [startEntity] when there are any. *)
Definition displayNetwork (networkData : option DonorMediaNetwork) (sel : FeedSelection)
    : DonorMediaNetwork :=
  match networkData with
  | None => {| nw_nodes := []; nw_links := [] |}
  | Some data =>
      let filtered := feed_filtered data sel in
      match fs_startEntity sel with
      | Some startEntity =>
          if String.eqb startEntity "" then filtered
          else
            let paths := findPaths filtered startEntity (fs_endEntity sel) (feed_path_options sel) in
            match paths with
            | [] => filtered
            | _ :: _ =>
                let pathNodeIds := fold_left (fun acc path => add_all nd_id (mp_nodes path) acc) paths ∅ in
                let pathLinkKeys := fold_left (fun acc path => add_all link_key (mp_links path) acc) paths ∅ in
                {| nw_nodes := List.filter (fun n => bool_decide (nd_id n ∈ pathNodeIds)) (nw_nodes filtered);
                   nw_links := List.filter (fun l => bool_decide (link_key l ∈ pathLinkKeys)) (nw_links filtered) |}
            end
      | None => filtered
      end
  end.

(** [[...new Set(networkData.links.map(l => l.relationship))]]: a [Set]
    keeps the first occurrence of each value, in insertion order. *)
Definition relationshipTypes (networkData : option DonorMediaNetwork) : list string :=
  match networkData with
  | None => []
  | Some data =>
      fold_left (fun acc r => if bool_decide (r ∈ acc) then acc else acc ++ [r])
        (map lk_relationship (nw_links data)) []
  end.

(* ------------------------------------------------------------------ *)
(** ** Network view filters ([src/unnamed/part_005]) *)

(** [filteredLinks], [activeNodeIds] and [filteredNodes] of the
    [DonorMediaNetwork] component ([src/unnamed/part_005]). *)
Definition filteredLinks (data : DonorMediaNetwork) (filterRelationship : option string)
    : list NetworkLink :=
  match filterRelationship with
  | Some r =>
      if String.eqb r "" then nw_links data
      else List.filter (fun l => String.eqb (lk_relationship l) r) (nw_links data)
  | None => nw_links data
  end.

Definition activeNodeIds (links : list NetworkLink) : gset string :=
  fold_left (fun ids l => {[lk_target l]} ∪ ({[lk_source l]} ∪ ids)) links ∅.

Definition filteredNodes (data : DonorMediaNetwork) (filterRelationship : option string)
    : list NetworkNode :=
  match filterRelationship with
  | Some r =>
      if String.eqb r "" then nw_nodes data
      else
        let ids := activeNodeIds (filteredLinks data filterRelationship) in
        List.filter (fun n => bool_decide (nd_id n ∈ ids)) (nw_nodes data)
  | None => nw_nodes data
  end.

(* ------------------------------------------------------------------ *)
(** ** Force layout hook ([useForceLayout]) *)

(** A node of the d3 simulation: the input node with its position;
    [sn_fixed] records [fx]/[fy] being set. *)
Record SimulationNode := {
  sn_node : NetworkNode;
  sn_x : Z;
  sn_y : Z;
  sn_fixed : bool
}.

(** The d3 simulation held by [simulationRef]. *)
Record Simulation := {
  sim_nodes : list SimulationNode;
  sim_links : list NetworkLink;
  sim_running : bool
}.

(** The hook's React state and its [simulationRef]. *)
Record HookState := {
  hs_nodes : list SimulationNode;
  hs_links : list NetworkLink;
  hs_isSimulating : bool;
  hs_simulationRef : option Simulation
}.

(** The two copies of the hook: [src/src/components/d3/useForceLayout.ts]
    ([layout_plain]) and the requestAnimationFrame-throttled one of
    [src/unnamed/part_005] ([layout_throttled]). *)
Inductive LayoutVersion := layout_plain | layout_throttled.

(** [useState([])], [useState([])], [useState(true)], [useRef(null)]. *)
Definition initial_hook_state : HookState :=
  {| hs_nodes := []; hs_links := []; hs_isSimulating := true; hs_simulationRef := None |}.

Definition with_simulation (st : HookState) (sim : option Simulation) : HookState :=
  {| hs_nodes := hs_nodes st; hs_links := hs_links st;
     hs_isSimulating := hs_isSimulating st; hs_simulationRef := sim |}.

Definition set_isSimulating (st : HookState) (b : bool) : HookState :=
  {| hs_nodes := hs_nodes st; hs_links := hs_links st;
     hs_isSimulating := b; hs_simulationRef := hs_simulationRef st |}.

(** [setNodes([...simulation.nodes()])] and [setLinks([...linkForce.links()])].
    The copied arrays hold the simulation's own node objects, which
    [setNodePosition], [releaseNode] and the ticks then change in place;
    [hs_nodes] records the nodes as of the last [setNodes], so it gives
    their identity ([sn_node]) and count, not their current positions. *)
Definition update_state (st : HookState) (sim : Simulation) : HookState :=
  {| hs_nodes := sim_nodes sim; hs_links := sim_links sim;
     hs_isSimulating := hs_isSimulating st; hs_simulationRef := hs_simulationRef st |}.

Definition set_running (sim : Simulation) (b : bool) : Simulation :=
  {| sim_nodes := sim_nodes sim; sim_links := sim_links sim; sim_running := b |}.

Definition set_sim_nodes (sim : Simulation) (ns : list SimulationNode) : Simulation :=
  {| sim_nodes := ns; sim_links := sim_links sim; sim_running := sim_running sim |}.

(** Initial positions: [placed i] is the position drawn with
    [Math.random()] for the [i]-th input node. *)
Definition place_nodes (placed : nat -> Z * Z) (inputNodes : list NetworkNode)
    : list SimulationNode :=
  imap (fun i n => {| sn_node := n; sn_x := fst (placed i); sn_y := snd (placed i);
                      sn_fixed := false |}) inputNodes.

(** The effect body on [inputNodes] and [inputLinks]. *)
Definition run_effect (v : LayoutVersion) (inputNodes : list NetworkNode)
    (inputLinks : list NetworkLink) (placed : nat -> Z * Z) (st : HookState) : HookState :=
  match inputNodes with
  | [] =>
      match v with
      | layout_plain =>
          (* setNodes([]); setLinks([]); return; *)
          {| hs_nodes := []; hs_links := []; hs_isSimulating := hs_isSimulating st;
             hs_simulationRef := hs_simulationRef st |}
      | layout_throttled =>
          (* simulationRef.current?.stop(); simulationRef.current = null; return; *)
          with_simulation st None
      end
  | _ =>
      with_simulation st
        (Some {| sim_nodes := place_nodes placed inputNodes; sim_links := inputLinks;
                 sim_running := true |})
  end.

(** Callbacks the hook hands out and events of the simulation it created. *)
Inductive LayoutEvent :=
  | restartSimulation
  | stopSimulation
  | setNodePosition (nodeId : string) (x y : Z) (fixed : bool)
  | releaseNode (nodeId : string)
  | sim_tick (move : SimulationNode -> SimulationNode)
  | raf_frame (settled : bool)
  | sim_end.

(** [simulation.nodes().find(n => n.id === nodeId)], updated by [f]. *)
Fixpoint update_first (nodeId : string) (f : SimulationNode -> SimulationNode)
    (ns : list SimulationNode) : option (list SimulationNode) :=
  match ns with
  | [] => None
  | n :: rest =>
      if String.eqb (nd_id (sn_node n)) nodeId then Some (f n :: rest)
      else option_map (cons n) (update_first nodeId f rest)
  end.

Definition place_at (x y : Z) (fixed : bool) (n : SimulationNode) : SimulationNode :=
  {| sn_node := sn_node n; sn_x := x; sn_y := y; sn_fixed := fixed |}.

Definition unfix (n : SimulationNode) : SimulationNode :=
  {| sn_node := sn_node n; sn_x := sn_x n; sn_y := sn_y n; sn_fixed := false |}.

(** Every callback is guarded by [if (simulationRef.current)], and only
    the simulation the current effect created emits [tick], [end] or
    animation frames (the cleanup stopped the earlier ones): with no
    simulation every event leaves the state as it is. [raf_frame settled]
    is one run of [scheduleUpdate], [settled] meaning [alpha() <= 0.01]. *)
Definition layout_step (v : LayoutVersion) (st : HookState) (ev : LayoutEvent) : HookState :=
  match hs_simulationRef st with
  | None => st
  | Some sim =>
      match ev with
      | restartSimulation =>
          with_simulation (set_isSimulating st true) (Some (set_running sim true))
      | stopSimulation =>
          set_isSimulating (with_simulation st (Some (set_running sim false))) false
      | setNodePosition nodeId x y fixed =>
          match update_first nodeId (place_at x y fixed) (sim_nodes sim) with
          | Some ns => with_simulation st (Some (set_running (set_sim_nodes sim ns) true))
          | None => st
          end
      | releaseNode nodeId =>
          match update_first nodeId unfix (sim_nodes sim) with
          | Some ns => with_simulation st (Some (set_sim_nodes sim ns))
          | None => st
          end
      | sim_tick move =>
          if sim_running sim then
            let sim' := set_sim_nodes sim (map move (sim_nodes sim)) in
            match v with
            | layout_plain => update_state (with_simulation st (Some sim')) sim'
            | layout_throttled => with_simulation st (Some sim')
            end
          else st
      | raf_frame settled =>
          match v with
          | layout_plain => st
          | layout_throttled =>
              if settled then set_isSimulating (update_state st sim) false
              else update_state st sim
          end
      | sim_end =>
          if sim_running sim then
            let st' := with_simulation st (Some (set_running sim false)) in
            match v with
            | layout_plain => set_isSimulating st' false
            | layout_throttled => set_isSimulating (update_state st' sim) false
            end
          else st
      end
  end.

(** The hook mounted on [inputNodes], then a sequence of events. *)
Definition run_layout (v : LayoutVersion) (inputNodes : list NetworkNode)
    (inputLinks : list NetworkLink) (placed : nat -> Z * Z) (evs : list LayoutEvent)
    : HookState :=
  fold_left (layout_step v) evs (run_effect v inputNodes inputLinks placed initial_hook_state).

(** The cleanup returned by the effect run that created the simulation
    held in [simulationRef]: [simulation.stop()] (the throttled copy also
    cancels its animation frame, which holds no state here). *)
Definition effect_cleanup (st : HookState) : HookState :=
  match hs_simulationRef st with
  | Some sim => with_simulation st (Some (set_running sim false))
  | None => st
  end.

(* ------------------------------------------------------------------ *)
(** ** Sample graph *)

Definition mk_node (id : string) (t : NodeType) : NetworkNode :=
  {| nd_id := id; nd_name := id; nd_type := t; nd_boardMembers := None |}.

Definition mk_link (s t : string) (amount : Z) : NetworkLink :=
  {| lk_source := s; lk_target := t; lk_relationship := "funder";
     lk_amount := Some amount |}.

Definition hops (h : Z) : PathFinderOptions :=
  {| po_maxHops := h; po_includeIntermediaries := true;
     po_filterByRelationship := None; po_filterByNodeType := None |}.

Definition chain_abc : DonorMediaNetwork :=
  {| nw_nodes := [mk_node "A" donor; mk_node "B" foundation; mk_node "C" media];
     nw_links := [mk_link "A" "B" 1000000; mk_link "B" "C" 900000] |}.

(** [x] is the id of a node of the graph. *)
Definition is_node (network : DonorMediaNetwork) (x : string) : Prop :=
  exists n, In n (nw_nodes network) /\ nd_id n = x.

(** A walk over the adjacency index from [x]: each step is an entry of
    the current node's list. *)
Fixpoint is_walk (links : list NetworkLink) (x : string) (steps : list AdjEntry) : Prop :=
  match steps with
  | [] => True
  | e :: rest => In e (adjacent_entries links None x) /\ is_walk links (ae_targetId e) rest
  end.

(** Graphs with a dangling link: [A -> X] where only [A] is a node, and
    [X -> B] where only [B] is a node. *)
Definition dangling_target : DonorMediaNetwork :=
  {| nw_nodes := [mk_node "A" donor]; nw_links := [mk_link "A" "X" 5] |}.

Definition dangling_source : DonorMediaNetwork :=
  {| nw_nodes := [mk_node "B" media]; nw_links := [mk_link "X" "B" 5] |}.

(** A node whose id is the empty string. *)
Definition empty_id_net : DonorMediaNetwork :=
  {| nw_nodes := [mk_node "" donor; mk_node "B" media]; nw_links := [mk_link "" "B" 5] |}.

(** A foundation [F] receiving 100 from [D] and passing 60 + 59 on, and
    the same with 61 + 60. *)
Definition shell_net : DonorMediaNetwork :=
  {| nw_nodes := [mk_node "D" donor; mk_node "F" foundation;
                  mk_node "M" media; mk_node "P" politician];
     nw_links := [mk_link "D" "F" 100; mk_link "F" "M" 60; mk_link "F" "P" 59] |}.

Definition shell_net_121 : DonorMediaNetwork :=
  {| nw_nodes := nw_nodes shell_net;
     nw_links := [mk_link "D" "F" 100; mk_link "F" "M" 61; mk_link "F" "P" 60] |}.

(** [S -> R] (10) and a dangling [R -> X] (15 along the path): the walk
    [S, R, X] resolves to the nodes [S, R]. *)
Definition tail_net : DonorMediaNetwork :=
  {| nw_nodes := [mk_node "S" donor; mk_node "R" foundation];
     nw_links := [mk_link "S" "R" 10; mk_link "R" "X" 5] |}.

(** Two organisations sharing board members [x] and [y], listed in
    opposite orders. *)
Definition board_a : NetworkNode :=
  {| nd_id := "a"; nd_name := "a"; nd_type := foundation;
     nd_boardMembers := Some ["x"; "y"]%string |}.

Definition board_b : NetworkNode :=
  {| nd_id := "b"; nd_name := "b"; nd_type := foundation;
     nd_boardMembers := Some ["y"; "x"]%string |}.

(** The one path of [chain_abc] from [A] to [C], and options filtering by
    relationship and node type. *)
Definition path_abc : MoneyPath :=
  {| mp_nodes := nw_nodes chain_abc; mp_links := nw_links chain_abc;
     mp_totalAmount := 1900000; mp_hopCount := 2 |}.

Definition typed_hops : PathFinderOptions :=
  {| po_maxHops := 3; po_includeIntermediaries := true;
     po_filterByRelationship := Some ["funder"%string];
     po_filterByNodeType := Some [foundation; media] |}.

(** The explorer with [A] selected as start entity and no filter. *)
Definition sel_from_A : FeedSelection :=
  {| fs_startEntity := Some "A"%string; fs_endEntity := None; fs_maxHops := 3;
     fs_includeIntermediaries := true; fs_filterRelationships := [];
     fs_filterNodeTypes := [] |}.

(** The simulation of the one node [A] at the origin. *)
Definition sim_A : Simulation :=
  {| sim_nodes := [{| sn_node := mk_node "A" donor; sn_x := 0; sn_y := 0; sn_fixed := false |}];
     sim_links := []; sim_running := true |}.

(* ================================================================== *)
(** * General lemmas *)

(** ** Stable sort *)

Section StableSortFacts.
Context {A : Type} (key : A -> Z).

Lemma insert_desc_perm (x : A) (l : list A) : insert_desc key x l ≡ₚ x :: l.
Proof.
  induction l as [|y r IH]; simpl; [done|].
  destruct (key y <? key x); [done|].
  rewrite IH. apply Permutation_swap.
Qed.

Lemma sort_desc_perm_acc (l acc : list A) :
  fold_left (fun acc x => insert_desc key x acc) l acc ≡ₚ l ++ acc.
Proof.
  revert acc. induction l as [|x l IH]; intros acc; simpl; [done|].
  rewrite IH, insert_desc_perm. by rewrite Permutation_middle.
Qed.

Lemma sort_desc_perm (l : list A) : sort_desc key l ≡ₚ l.
Proof. unfold sort_desc. by rewrite sort_desc_perm_acc, app_nil_r. Qed.

Lemma sort_desc_In (l : list A) (x : A) : In x (sort_desc key l) <-> In x l.
Proof.
  split; apply Permutation_in; [|symmetry]; apply sort_desc_perm.
Qed.

Lemma insert_desc_hd (y x : A) (r : list A) :
  HdRel (amount_desc key) y r -> (amount_desc key) y x -> HdRel (amount_desc key) y (insert_desc key x r).
Proof.
  intros Hr Hx. destruct r as [|z r]; simpl.
  - by constructor.
  - destruct (key z <? key x); constructor; [done|]. by inversion Hr.
Qed.

Lemma insert_desc_sorted (x : A) (l : list A) :
  Sorted (amount_desc key) l -> Sorted (amount_desc key) (insert_desc key x l).
Proof.
  induction l as [|y r IH]; intros Hs; simpl.
  - by repeat constructor.
  - destruct (key y <? key x) eqn:Hlt.
    + constructor; [done|]. constructor. unfold amount_desc. apply Z.ltb_lt in Hlt. lia.
    + apply Sorted_inv in Hs as [Hs Hhd]. constructor; [by apply IH|].
      apply insert_desc_hd; [done|]. unfold amount_desc. apply Z.ltb_ge in Hlt. lia.
Qed.

Lemma sort_desc_sorted (l : list A) : Sorted (amount_desc key) (sort_desc key l).
Proof.
  unfold sort_desc. cut (forall acc, Sorted (amount_desc key) acc ->
    Sorted (amount_desc key) (fold_left (fun acc x => insert_desc key x acc) l acc)).
  { intros H. apply H. constructor. }
  induction l as [|x l IH]; intros acc Hacc; simpl; [done|].
  apply IH. by apply insert_desc_sorted.
Qed.
End StableSortFacts.

(** ** Adjacency index *)

Lemma adj_push_lookup (k x : string) (e : AdjEntry) (m : gmap string (list AdjEntry)) :
  default [] (adj_push k e m !! x) =
  default [] (m !! x) ++ (if String.eqb k x then [e] else []).
Proof.
  unfold adj_push. destruct (String.eqb_spec k x) as [->|Hne].
  - by rewrite lookup_insert_eq.
  - rewrite lookup_insert_ne by done. by rewrite app_nil_r.
Qed.

Lemma fold_adj_lookup (f : option (list string)) (links : list NetworkLink)
    (m : gmap string (list AdjEntry)) (x : string) :
  default [] (fold_left (adj_add_link f) links m !! x) =
  default [] (m !! x) ++ adjacent_entries links f x.
Proof.
  revert m. induction links as [|l links IH]; intros m; simpl.
  - by rewrite app_nil_r.
  - rewrite IH. unfold adjacent_entries. simpl. unfold adj_add_link.
    destruct (relationship_allowed f l); simpl; [|done].
    rewrite !adj_push_lookup. unfold link_entries. by rewrite <- !app_assoc.
Qed.

(** [buildAdjacencyMap] holds, for each id, the entries of [link_entries]
    of every allowed link, in link order. *)
Lemma buildAdjacencyMap_lookup (network : DonorMediaNetwork)
    (f : option (list string)) (x : string) :
  default [] (buildAdjacencyMap network f !! x) = adjacent_entries (nw_links network) f x.
Proof. unfold buildAdjacencyMap. by rewrite fold_adj_lookup, lookup_empty. Qed.

Lemma adjacent_entries_length (links : list NetworkLink) f x :
  (length (adjacent_entries links f x) <= 2 * length links)%nat.
Proof.
  unfold adjacent_entries. induction links as [|l links IH]; simpl; [lia|].
  assert (length (link_entries x l) <= 2)%nat.
  { unfold link_entries.
    destruct (String.eqb (lk_source l) x), (String.eqb (lk_target l) x); simpl; lia. }
  destruct (relationship_allowed f l); simpl; [|lia].
  rewrite length_app. lia.
Qed.

(** ** Node map *)

Lemma fold_node_map_lookup (ns : list NetworkNode) (m : gmap string NetworkNode)
    (id : string) (n : NetworkNode) :
  fold_left (fun m n => <[nd_id n := n]> m) ns m !! id = Some n ->
  m !! id = Some n \/ (In n ns /\ nd_id n = id).
Proof.
  revert m. induction ns as [|k ns IH]; intros m H; simpl in *; [by left|].
  destruct (IH _ H) as [Hm|[Hin Hid]]; [|by right; auto].
  destruct (decide (nd_id k = id)) as [<-|Hne].
  - rewrite lookup_insert_eq in Hm. injection Hm as ->. by right; auto.
  - rewrite lookup_insert_ne in Hm by done. by left.
Qed.

Lemma node_map_lookup (ns : list NetworkNode) (id : string) (n : NetworkNode) :
  node_map ns !! id = Some n -> In n ns /\ nd_id n = id.
Proof.
  intros H. apply fold_node_map_lookup in H as [H|H]; [|done].
  by rewrite lookup_empty in H.
Qed.

Lemma fold_node_map_is_Some (ns : list NetworkNode) (m : gmap string NetworkNode)
    (id : string) :
  is_Some (m !! id) \/ (exists n, In n ns /\ nd_id n = id) ->
  is_Some (fold_left (fun m n => <[nd_id n := n]> m) ns m !! id).
Proof.
  revert m. induction ns as [|k ns IH]; intros m H; simpl in *.
  - by destruct H as [H|[n [[] _]]].
  - apply IH. destruct (decide (nd_id k = id)) as [<-|Hne].
    + left. rewrite lookup_insert_eq. by eexists.
    + rewrite lookup_insert_ne by done.
      destruct H as [H|[n [[<-|Hin] Hid]]]; [by left|done|by right; eauto].
Qed.

Lemma node_map_is_Some (ns : list NetworkNode) (id : string) :
  (exists n, In n ns /\ nd_id n = id) -> is_Some (node_map ns !! id).
Proof. intros H. apply fold_node_map_is_Some. by right. Qed.

Lemma present_nodes_app (nm : gmap string NetworkNode) (l1 l2 : list string) :
  present_nodes nm (l1 ++ l2) = present_nodes nm l1 ++ present_nodes nm l2.
Proof.
  induction l1 as [|x l1 IH]; simpl; [done|].
  destruct (nm !! x); by rewrite IH.
Qed.

Lemma present_nodes_ids (ns : list NetworkNode) (ids : list string) (x : string) :
  In x (map nd_id (present_nodes (node_map ns) ids)) -> In x ids.
Proof.
  induction ids as [|y ids IH]; simpl; [done|].
  destruct (node_map ns !! y) as [n|] eqn:Hy; simpl; [|auto].
  apply node_map_lookup in Hy as [_ <-]. intros [<-|H]; auto.
Qed.

Lemma present_nodes_NoDup (ns : list NetworkNode) (ids : list string) :
  NoDup ids -> NoDup (map nd_id (present_nodes (node_map ns) ids)).
Proof.
  induction ids as [|y ids IH]; intros Hnd; simpl; [constructor|].
  apply NoDup_cons in Hnd as [Hy Hnd].
  destruct (node_map ns !! y) as [n|] eqn:Hn; simpl; [|auto].
  apply node_map_lookup in Hn as [_ ->]. constructor; [|auto].
  intros Hin. apply Hy, list_elem_of_In, (present_nodes_ids ns), list_elem_of_In, Hin.
Qed.

(** ** The BFS loop *)

Lemma filter_length_below {A} (f : A -> bool) (l : list A) :
  (length (List.filter f l) <= length l)%nat.
Proof. induction l as [|x l IH]; simpl; [lia|]. destruct (f x); simpl; lia. Qed.

Section BfsFacts.
Variable adjacencyMap : gmap string (list AdjEntry).
Variable nodeMap : gmap string NetworkNode.
Variable options : PathFinderOptions.
Variable endId : option string.

Local Abbreviation stp := (step adjacencyMap nodeMap options endId).
Local Abbreviation run := (bfs adjacencyMap nodeMap options endId).
Local Abbreviation succs := (successors adjacencyMap nodeMap options).
Local Abbreviation desc := (descends adjacencyMap nodeMap options endId).

Lemma bfs_acc fuel q acc : exists extra, run fuel q acc = acc ++ extra.
Proof.
  revert q acc. induction fuel as [|fuel IH]; intros q acc; simpl.
  - exists []. by rewrite app_nil_r.
  - destruct q as [|it rest]; [exists []; by rewrite app_nil_r|].
    destruct (stp it) as [found next].
    destruct (IH (rest ++ next) (acc ++ found)) as [extra ->].
    exists (found ++ extra). by rewrite app_assoc.
Qed.

Lemma bfs_sound fuel q acc p :
  In p (run fuel q acc) ->
  In p acc \/ exists it j, In it q /\ desc it j /\ In p (fst (stp j)).
Proof.
  revert q acc. induction fuel as [|fuel IH]; intros q acc Hp; simpl in Hp; [by left|].
  destruct q as [|it rest]; [by left|].
  destruct (stp it) as [found next] eqn:Hs.
  apply IH in Hp as [Hp|(it' & j & Hin & Hd & Hj)].
  - apply in_app_iff in Hp as [Hp|Hp]; [by left|].
    right. exists it, it. split; [by left|]. split; [constructor|]. by rewrite Hs.
  - right. apply in_app_iff in Hin as [Hin|Hin].
    + exists it', j. split; [by right|]. done.
    + exists it, j. split; [by left|]. split; [|done].
      apply descends_next with it'; [by rewrite Hs|done].
Qed.

Lemma step_snd it c : In c (snd (stp it)) -> In c (succs it).
Proof.
  unfold step. case_bool_decide; [done|].
  destruct (_ && _); [done|]. done.
Qed.

Lemma step_fst j p :
  In p (fst (stp j)) ->
  p = to_path nodeMap j /\ (1 < length (qi_nodePath j))%nat /\
  Z.of_nat (length (qi_nodePath j)) <= po_maxHops options + 1 /\
  (endId_truthy endId = true -> reached_end endId (qi_nodeId j) = true).
Proof.
  unfold step. case_bool_decide as Hhop; [done|].
  destruct (reached_end endId (qi_nodeId j) && _) eqn:Hend.
  - intros [<-|[]]. apply andb_true_iff in Hend as [Hr Hl].
    apply Nat.ltb_lt in Hl. repeat split; [done|lia|done].
  - destruct (negb (endId_truthy endId) && _) eqn:Hnull; [|done].
    intros [<-|[]]. apply andb_true_iff in Hnull as [Hn Hl].
    apply Nat.ltb_lt in Hl. apply negb_true_iff in Hn.
    repeat split; [lia|lia|]. by rewrite Hn.
Qed.

Lemma successors_ok startId it c :
  item_ok startId it -> In c (succs it) -> item_ok startId c.
Proof.
  intros (Hhead & Hlast & Hnd & Hlen) Hc. unfold successors in Hc.
  apply in_map_iff in Hc as (e & <- & He). apply filter_In in He as [_ Hadm].
  unfold neighbour_admitted in Hadm. case_bool_decide as Hnew; [done|].
  unfold item_ok, extend; simpl.
  split; [destruct Hhead as [rest ->]; by exists (rest ++ [ae_targetId e])|].
  split; [by rewrite last_snoc|].
  split.
  - apply NoDup_app. split; [done|]. split; [|apply NoDup_singleton].
    intros x Hx Hx2. apply list_elem_of_singleton in Hx2. subst x. done.
  - rewrite !length_app. simpl. lia.
Qed.

Lemma descends_ok startId it j :
  desc it j -> item_ok startId it -> item_ok startId j.
Proof.
  induction 1 as [it|it c j Hc Hd IH]; [done|].
  intros Hit. apply IH. apply successors_ok with it; [done|]. by apply step_snd.
Qed.

(** Termination measure. *)
Variable base : nat.
Hypothesis successors_below_base : forall it, (length (succs it) < base)%nat.

Lemma queue_measure_app b d (l1 l2 : list QueueItem) :
  queue_measure b d (l1 ++ l2) = (queue_measure b d l1 + queue_measure b d l2)%nat.
Proof. unfold queue_measure. apply sum_list_with_app. Qed.

Lemma successors_measure it :
  queue_measure base (hop_depth options) (succs it) =
  (length (succs it) * base ^ (hop_depth options - S (length (qi_nodePath it))))%nat.
Proof.
  unfold successors.
  generalize (List.filter (neighbour_admitted nodeMap options it)
                (default [] (adjacencyMap !! qi_nodeId it))).
  intros l. induction l as [|e l IH]; [done|].
  cbn [map length]. unfold queue_measure in *. cbn [sum_list_with].
  rewrite IH. unfold item_weight, extend. cbn [qi_nodePath].
  rewrite length_app, Nat.add_1_r. cbn [length]. lia.
Qed.

Lemma step_measure it rest :
  (queue_measure base (hop_depth options) (rest ++ snd (stp it)) <
   queue_measure base (hop_depth options) (it :: rest))%nat.
Proof.
  assert (Hb : (0 < base)%nat) by (specialize (successors_below_base it); lia).
  assert (Hw : forall k, (0 < base ^ k)%nat).
  { intros k. pose proof (Nat.pow_nonzero base k). lia. }
  rewrite queue_measure_app.
  change (queue_measure base (hop_depth options) (it :: rest)) with
    (item_weight base (hop_depth options) it + queue_measure base (hop_depth options) rest)%nat.
  unfold item_weight. unfold step. case_bool_decide as Hhop.
  { cbn [snd]. unfold queue_measure at 2. cbn [sum_list_with].
    specialize (Hw (hop_depth options - length (qi_nodePath it))%nat). lia. }
  destruct (_ && _).
  { cbn [snd]. unfold queue_measure at 2. cbn [sum_list_with].
    specialize (Hw (hop_depth options - length (qi_nodePath it))%nat). lia. }
  cbn [snd]. rewrite successors_measure.
  assert (Hd : (hop_depth options - length (qi_nodePath it) =
                S (hop_depth options - S (length (qi_nodePath it))))%nat).
  { unfold hop_depth. lia. }
  rewrite Hd, Nat.pow_succ_r'.
  specialize (successors_below_base it).
  specialize (Hw (hop_depth options - S (length (qi_nodePath it)))%nat).
  nia.
Qed.

Lemma bfs_complete fuel q acc :
  (queue_measure base (hop_depth options) q < fuel)%nat ->
  forall it j p, In it q -> desc it j -> In p (fst (stp j)) -> In p (run fuel q acc).
Proof.
  revert q acc. induction fuel as [|fuel IH]; intros q acc Hf it j p Hit Hd Hp; [lia|].
  destruct q as [|it0 rest]; [done|]. simpl.
  pose proof (step_measure it0 rest) as Hm.
  destruct (stp it0) as [found next] eqn:Hs. cbn [snd] in Hm.
  assert (Hf' : (queue_measure base (hop_depth options) (rest ++ next) < fuel)%nat) by lia.
  destruct Hit as [<-|Hit].
  - destruct Hd as [it0|it0 c j Hc Hd].
    + destruct (bfs_acc fuel (rest ++ next) (acc ++ found)) as [extra ->].
      rewrite Hs in Hp. cbn [fst] in Hp. apply in_app_iff. left.
      apply in_app_iff. by right.
    + rewrite Hs in Hc. cbn [snd] in Hc.
      apply IH with c j; [done| |done|done]. apply in_app_iff. by right.
  - apply IH with it j; [done| |done|done]. apply in_app_iff. by left.
Qed.
End BfsFacts.

Lemma start_item_ok (startId : string) : item_ok startId (start_item startId).
Proof.
  unfold item_ok, start_item; simpl. split; [by exists []|].
  split; [done|]. split; [apply NoDup_singleton|done].
Qed.

(** Every path [findPaths] returns is the path of an item of the search,
    dequeued within the hop budget. *)
Lemma findPaths_sound (network : DonorMediaNetwork) (startId : string)
    (endId : option string) (options : PathFinderOptions) (p : MoneyPath) :
  In p (findPaths network startId endId options) ->
  exists j, item_ok startId j /\ p = to_path (node_map (nw_nodes network)) j /\
    (1 < length (qi_nodePath j))%nat /\
    Z.of_nat (length (qi_nodePath j)) <= po_maxHops options + 1 /\
    (endId_truthy endId = true -> reached_end endId (qi_nodeId j) = true).
Proof.
  unfold findPaths. intros Hp. apply sort_desc_In in Hp.
  apply bfs_sound in Hp as [[]|(it & j & [<-|[]] & Hd & Hj)].
  exists j. split; [apply (descends_ok _ _ _ _ _ _ _ Hd), start_item_ok|].
  by apply step_fst in Hj.
Qed.

(** Conversely every path the search emits is returned: the fuel suffices. *)
Lemma findPaths_complete (network : DonorMediaNetwork) (startId : string)
    (endId : option string) (options : PathFinderOptions) (j : QueueItem) (p : MoneyPath) :
  descends (buildAdjacencyMap network (po_filterByRelationship options))
    (node_map (nw_nodes network)) options endId (start_item startId) j ->
  In p (fst (step (buildAdjacencyMap network (po_filterByRelationship options))
                 (node_map (nw_nodes network)) options endId j)) ->
  In p (findPaths network startId endId options).
Proof.
  unfold findPaths. intros Hd Hp. apply sort_desc_In.
  eapply bfs_complete with (base := hop_base network); [| |by left|exact Hd|exact Hp].
  - intros it. unfold successors. rewrite length_map, buildAdjacencyMap_lookup.
    pose proof (filter_length_below (neighbour_admitted (node_map (nw_nodes network)) options it)
                  (adjacent_entries (nw_links network) (po_filterByRelationship options) (qi_nodeId it))).
    pose proof (adjacent_entries_length (nw_links network) (po_filterByRelationship options) (qi_nodeId it)).
    unfold hop_base. lia.
  - lia.
Qed.

Example chain_abc_paths :
  map (fun p => (map nd_id (mp_nodes p), mp_totalAmount p))
    (findPaths chain_abc "A" None (hops 2))
  = [(["A"; "B"; "C"], 1900000); (["A"; "B"], 1000000)]%string.
Proof. vm_compute. reflexivity. Qed.

(** ** Facts on resolved node lists *)

Lemma node_map_None (network : DonorMediaNetwork) (x : string) :
  ~ is_node network x -> node_map (nw_nodes network) !! x = None.
Proof.
  intros Hx. destruct (node_map (nw_nodes network) !! x) as [n|] eqn:Hn; [|done].
  apply node_map_lookup in Hn. destruct Hx. by exists n.
Qed.

Lemma present_nodes_head (network : DonorMediaNetwork) (s : string) (rest : list string) :
  is_node network s ->
  option_map nd_id (head (present_nodes (node_map (nw_nodes network)) (s :: rest))) = Some s.
Proof.
  intros Hs. apply node_map_is_Some in Hs as [n Hn]. simpl. rewrite Hn. simpl.
  apply node_map_lookup in Hn as [_ ->]. done.
Qed.

Lemma present_nodes_last (network : DonorMediaNetwork) (l : list string) (t : string) :
  is_node network t ->
  option_map nd_id (last (present_nodes (node_map (nw_nodes network)) (l ++ [t]))) = Some t.
Proof.
  intros Ht. apply node_map_is_Some in Ht as [n Hn].
  rewrite present_nodes_app. simpl. rewrite Hn, last_snoc. simpl.
  apply node_map_lookup in Hn as [_ ->]. done.
Qed.

(** ** Search facts used by several claims *)

Lemma findPaths_sound_descends (network : DonorMediaNetwork) (startId : string)
    (endId : option string) (options : PathFinderOptions) (p : MoneyPath) :
  In p (findPaths network startId endId options) ->
  exists j,
    descends (buildAdjacencyMap network (po_filterByRelationship options))
      (node_map (nw_nodes network)) options endId (start_item startId) j /\
    In p (fst (step (buildAdjacencyMap network (po_filterByRelationship options))
                 (node_map (nw_nodes network)) options endId j)).
Proof.
  unfold findPaths. intros Hp. apply sort_desc_In in Hp.
  apply bfs_sound in Hp as [[]|(it & j & [<-|[]] & Hd & Hj)]. by exists j.
Qed.

Lemma extend_fold_fields (steps : list AdjEntry) (it : QueueItem) :
  qi_nodePath (fold_left extend steps it) = qi_nodePath it ++ map ae_targetId steps /\
  qi_linkPath (fold_left extend steps it) = qi_linkPath it ++ map ae_link steps /\
  qi_totalAmount (fold_left extend steps it) =
    fold_left (fun sum l => sum + amount_or_zero l) (map ae_link steps) (qi_totalAmount it).
Proof.
  revert it. induction steps as [|e steps IH]; intros it; simpl.
  - by rewrite !app_nil_r.
  - destruct (IH (extend it e)) as (H1 & H2 & H3). rewrite H1, H2, H3. simpl.
    by rewrite <- !app_assoc.
Qed.

(** Every simple walk within the hop budget is dequeued by a search with
    no filters and no target. *)
Lemma walk_descends (network : DonorMediaNetwork) (h : Z) (steps : list AdjEntry)
    (it : QueueItem) :
  is_walk (nw_links network) (qi_nodeId it) steps ->
  NoDup (qi_nodePath it ++ map ae_targetId steps) ->
  Z.of_nat (length (qi_nodePath it) + length steps) <= h + 1 ->
  descends (buildAdjacencyMap network None) (node_map (nw_nodes network)) (hops h) None
    it (fold_left extend steps it).
Proof.
  revert it. induction steps as [|e steps IH]; intros it Hw Hnd Hlen; simpl.
  { constructor. }
  destruct Hw as [He Hw].
  apply descends_next with (extend it e).
  - unfold step. case_bool_decide as Hhop; [simpl in Hhop, Hlen; lia|].
    cbn [reached_end andb endId_truthy negb snd].
    unfold successors. apply in_map, filter_In. split.
    + by rewrite buildAdjacencyMap_lookup.
    + unfold neighbour_admitted. case_bool_decide as Hin; [|done].
      apply NoDup_app in Hnd as (_ & Hdis & _).
      destruct (Hdis _ Hin). simpl. apply list_elem_of_here.
  - apply IH; [done| |].
    + simpl. by rewrite <- app_assoc.
    + simpl in *. rewrite length_app. simpl. lia.
Qed.

(* ================================================================== *)
(** * Claims *)

(** ** Path finder *)

(** C1: every path [findPaths(G, s, null, options)] returns is simple (no
    node id occurs twice in its node list) and has at most [maxHops]
    edges. Proved for every [maxHops], every option record and every [s]. *)
Theorem findPaths_simple_within_hops (network : DonorMediaNetwork) (s : string)
    (options : PathFinderOptions) :
  Forall (fun p => NoDup (map nd_id (mp_nodes p)) /\
                   Z.of_nat (mp_hopCount p) <= po_maxHops options)
    (findPaths network s None options).
Proof.
  apply List.Forall_forall. intros p Hp.
  apply findPaths_sound in Hp as (j & (_ & _ & Hnd & Hlen) & -> & _ & Hmax & _).
  simpl. split; [by apply present_nodes_NoDup|]. lia.
Qed.

(** C4 (amended): for a non-empty target id [t], every path of
    [findPaths(G, s, t, options)] has at least one edge and comes from a
    node-id sequence that starts at [s] and ends at [t]; its [nodes] list
    is that sequence with the ids that are not nodes of [G] dropped, so it
    starts at [s] when [s] is a node of [G] and ends at [t] when [t] is. *)
Theorem findPaths_to_target (network : DonorMediaNetwork) (s t : string)
    (options : PathFinderOptions) :
  t <> ""%string ->
  Forall (fun p =>
      (1 <= mp_hopCount p)%nat /\
      (exists ids, mp_nodes p = present_nodes (node_map (nw_nodes network)) ids /\
                   head ids = Some s /\ last ids = Some t /\
                   length ids = S (mp_hopCount p)) /\
      (is_node network s -> option_map nd_id (head (mp_nodes p)) = Some s) /\
      (is_node network t -> option_map nd_id (last (mp_nodes p)) = Some t))
    (findPaths network s (Some t) options).
Proof.
  intros Ht. apply List.Forall_forall. intros p Hp.
  apply findPaths_sound in Hp as (j & ([rest Hhead] & Hlast & _ & Hlen) & -> & Hgt & _ & Hend).
  assert (Hid : qi_nodeId j = t).
  { unfold endId_truthy, reached_end in Hend.
    destruct (String.eqb_spec t "") as [->|_]; [done|].
    simpl in Hend. apply String.eqb_eq. by apply Hend. }
  rewrite Hid in Hlast. simpl.
  split; [lia|]. split.
  { exists (qi_nodePath j). rewrite Hhead. split; [done|]. split; [done|].
    rewrite <- Hhead. split; [done|lia]. }
  split.
  - intros Hs. rewrite Hhead. by apply present_nodes_head.
  - intros Htn. apply last_Some in Hlast as [l ->]. by apply present_nodes_last.
Qed.

(** Witness of C4: the chain [A -> B -> C], from [A] to [C]. *)
Lemma findPaths_to_target_witness :
  "C"%string <> ""%string /\
  Forall (fun p =>
      (1 <= mp_hopCount p)%nat /\
      (exists ids, mp_nodes p = present_nodes (node_map (nw_nodes chain_abc)) ids /\
                   head ids = Some "A"%string /\ last ids = Some "C"%string /\
                   length ids = S (mp_hopCount p)) /\
      (is_node chain_abc "A" -> option_map nd_id (head (mp_nodes p)) = Some "A"%string) /\
      (is_node chain_abc "C" -> option_map nd_id (last (mp_nodes p)) = Some "C"%string))
    (findPaths chain_abc "A" (Some "C"%string) (hops 2)).
Proof.
  split; [discriminate|]. apply findPaths_to_target. discriminate.
Defined.

(** C4 fails as stated: with the start id [X] not a node of the graph, the
    one path from [X] to [B] has the node list [[B]], which does not start
    at [X]. *)
Lemma findPaths_to_target_counterexample :
  ~ Forall (fun p =>
      option_map nd_id (head (mp_nodes p)) = Some "X"%string /\
      option_map nd_id (last (mp_nodes p)) = Some "B"%string /\
      (1 <= mp_hopCount p)%nat)
    (findPaths dangling_source "X" (Some "B"%string) (hops 1)).
Proof.
  vm_compute. intros H. inversion H as [|p l [Hh _] _]. discriminate Hh.
Qed.

(** C2: on the chain [A -> B -> C] (amounts 1,000,000 and 900,000) the
    search from [A] with [maxHops = 2] and no target returns exactly
    [[A,B,C]] (1,900,000) then [[A,B]] (1,000,000); in general, with no
    target and no filters, every simple walk over the adjacency index of
    one to [maxHops] edges is returned, and results are sorted by
    cumulative amount, descending. *)
Theorem findPaths_all_paths_ranked :
  map (fun p => (map nd_id (mp_nodes p), mp_totalAmount p))
    (findPaths chain_abc "A" None (hops 2))
  = [(["A"; "B"; "C"], 1900000); (["A"; "B"], 1000000)]%string /\
  (forall network s endId options,
     Sorted (amount_desc mp_totalAmount) (findPaths network s endId options)) /\
  (forall network s h steps,
     is_walk (nw_links network) s steps ->
     NoDup (s :: map ae_targetId steps) ->
     (1 <= length steps)%nat -> Z.of_nat (length steps) <= h ->
     exists p, In p (findPaths network s None (hops h)) /\
       mp_links p = map ae_link steps /\
       mp_nodes p = present_nodes (node_map (nw_nodes network)) (s :: map ae_targetId steps) /\
       mp_totalAmount p = sum_amounts (map ae_link steps)).
Proof.
  split; [vm_compute; reflexivity|].
  split; [intros; apply sort_desc_sorted|].
  intros network s h steps Hw Hnd Hge Hle.
  destruct (extend_fold_fields steps (start_item s)) as (Hn & Hl & Ht).
  set (j := fold_left extend steps (start_item s)) in *.
  exists (to_path (node_map (nw_nodes network)) j). split.
  - apply findPaths_complete with j.
    + apply walk_descends; [done|done|]. simpl. lia.
    + unfold step. rewrite Hn. cbn [start_item qi_nodePath length app].
      rewrite length_map. case_bool_decide as Hhop; [simpl in Hhop; lia|].
      cbn [reached_end andb endId_truthy negb fst].
      destruct (1 <? S (length steps))%nat eqn:Hlt; [by left|].
      apply Nat.ltb_ge in Hlt. lia.
  - unfold to_path. cbn [mp_links mp_nodes mp_totalAmount].
    rewrite Hn, Hl, Ht. done.
Qed.

(** Witness of C2: the walk [A -> B -> C] of the chain. *)
Lemma findPaths_all_paths_ranked_witness :
  exists p, In p (findPaths chain_abc "A" None (hops 2)) /\
    mp_links p = [mk_link "A" "B" 1000000; mk_link "B" "C" 900000] /\
    mp_nodes p = present_nodes (node_map (nw_nodes chain_abc)) ["A"; "B"; "C"]%string /\
    mp_totalAmount p = 1900000.
Proof.
  destruct (proj2 (proj2 findPaths_all_paths_ranked) chain_abc "A" 2
     [{| ae_targetId := "B"; ae_link := mk_link "A" "B" 1000000 |};
      {| ae_targetId := "C"; ae_link := mk_link "B" "C" 900000 |}]) as [p Hp].
  - split; [left; reflexivity|]. split; [right; left; reflexivity|]. exact I.
  - apply NoDup_cons. split; [vm_compute; intros H; inversion H as [|? ? ? Hi]; inversion Hi as [|? ? ? Hi2]; inversion Hi2|].
    apply NoDup_cons. split; [vm_compute; intros H; inversion H as [|? ? ? Hi]; inversion Hi|].
    apply NoDup_singleton.
  - simpl. lia.
  - simpl. lia.
  - exists p. destruct Hp as (Hin & Hl & Hn & Ht). split; [done|]. split; [done|].
    split; [done|]. rewrite Ht. reflexivity.
Defined.

(** C8 (amended): a search with [maxHops < 1], or from an id that is an
    endpoint of no link the relationship filter keeps, returns the empty
    list. (The function is total: it never throws.) *)
Theorem findPaths_invalid_calls (network : DonorMediaNetwork) (s : string)
    (endId : option string) (options : PathFinderOptions) :
  (po_maxHops options < 1 -> findPaths network s endId options = []) /\
  ((forall l, In l (nw_links network) ->
      relationship_allowed (po_filterByRelationship options) l = true ->
      lk_source l <> s /\ lk_target l <> s) ->
   findPaths network s endId options = []).
Proof.
  split.
  - intros Hmax. destruct (findPaths network s endId options) as [|p ps] eqn:E; [done|].
    exfalso. assert (Hp : In p (findPaths network s endId options)) by (rewrite E; by left).
    apply findPaths_sound in Hp as (j & _ & _ & Hgt & Hle & _). lia.
  - intros Hno. destruct (findPaths network s endId options) as [|p ps] eqn:E; [done|].
    exfalso. assert (Hp : In p (findPaths network s endId options)) by (rewrite E; by left).
    apply findPaths_sound_descends in Hp as (j & Hd & Hj).
    inversion Hd as [it Heq1 Heq2|it c j' Hc Hd' Heq1 Heq2]; subst.
    + apply step_fst in Hj as (_ & Hgt & _). simpl in Hgt. lia.
    + apply step_snd in Hc. unfold successors in Hc.
      rewrite buildAdjacencyMap_lookup in Hc.
      apply in_map_iff in Hc as (e & _ & He). apply filter_In in He as [He _].
      unfold adjacent_entries in He. apply in_flat_map in He as (l & Hl & He).
      apply filter_In in Hl as [Hl Hallowed].
      destruct (Hno l Hl Hallowed) as [Hs Ht].
      unfold link_entries in He. simpl in He.
      destruct (String.eqb_spec (lk_source l) s); [done|].
      destruct (String.eqb_spec (lk_target l) s); [done|]. done.
Qed.

(** Witness of C8: the chain with [maxHops = 0], and a search from the
    unknown id [Z]. *)
Lemma findPaths_invalid_calls_witness :
  (po_maxHops (hops 0) < 1 /\ findPaths chain_abc "A" None (hops 0) = []) /\
  ((forall l, In l (nw_links chain_abc) ->
      relationship_allowed (po_filterByRelationship (hops 2)) l = true ->
      lk_source l <> "Z"%string /\ lk_target l <> "Z"%string) /\
   findPaths chain_abc "Z" None (hops 2) = []).
Proof.
  split.
  - assert (H : po_maxHops (hops 0) < 1) by (simpl; lia).
    split; [exact H|]. apply (proj1 (findPaths_invalid_calls chain_abc "A" None (hops 0)) H).
  - assert (H : forall l, In l (nw_links chain_abc) ->
              relationship_allowed (po_filterByRelationship (hops 2)) l = true ->
              lk_source l <> "Z"%string /\ lk_target l <> "Z"%string).
    { intros l [<-|[<-|[]]] _; split; discriminate. }
    split; [exact H|]. apply (proj2 (findPaths_invalid_calls chain_abc "Z" None (hops 2)) H).
Defined.

(** C8 fails as stated: [X] is not a node of [dangling_source], yet the
    search from [X] follows the link [X -> B]. *)
Lemma findPaths_invalid_calls_counterexample :
  ~ is_node dangling_source "X" /\ findPaths dangling_source "X" None (hops 1) <> [].
Proof.
  split.
  - intros (n & [<-|[]] & Hn). discriminate Hn.
  - vm_compute. discriminate.
Qed.

(** C7 (amended): a dangling link is not excluded. A link [e] that the
    relationship filter keeps, from [s] to an id that is not a node of the
    graph, is traversed: with [maxHops >= 1] the search from [s] returns
    the one-edge path over [e], whose node list keeps only the ids that
    are nodes. No error is raised. *)
Theorem findPaths_traverses_dangling (network : DonorMediaNetwork) (s : string)
    (options : PathFinderOptions) (e : NetworkLink) :
  In e (nw_links network) ->
  relationship_allowed (po_filterByRelationship options) e = true ->
  lk_source e = s -> ~ is_node network (lk_target e) -> lk_target e <> s ->
  1 <= po_maxHops options ->
  exists p, In p (findPaths network s None options) /\ mp_links p = [e] /\
    mp_nodes p = present_nodes (node_map (nw_nodes network)) [s] /\
    mp_totalAmount p = amount_or_zero e.
Proof.
  intros He Hallowed Hsrc Hdang Hne Hmax.
  set (j := extend (start_item s) {| ae_targetId := lk_target e; ae_link := e |}).
  exists (to_path (node_map (nw_nodes network)) j). split.
  - apply findPaths_complete with j.
    + apply descends_next with j; [|constructor].
      unfold step. case_bool_decide as Hhop; [simpl in Hhop; lia|].
      cbn [reached_end andb snd start_item qi_nodeId qi_nodePath length].
      unfold successors. apply in_map, filter_In. split.
      * rewrite buildAdjacencyMap_lookup. unfold adjacent_entries.
        apply in_flat_map. exists e. split; [by apply filter_In|].
        unfold link_entries. rewrite Hsrc, String.eqb_refl. by left.
      * unfold neighbour_admitted. simpl. case_bool_decide as Hin.
        { apply list_elem_of_singleton in Hin. done. }
        rewrite (node_map_None network (lk_target e) Hdang).
        by destruct (po_filterByNodeType options).
    + unfold step. case_bool_decide as Hhop; [simpl in Hhop; lia|].
      cbn [reached_end andb endId_truthy negb fst]. by left.
  - pose proof (node_map_None network (lk_target e) Hdang) as Hnone.
    unfold to_path, j, extend, start_item.
    cbn [mp_links mp_nodes mp_totalAmount qi_nodePath qi_linkPath qi_totalAmount app ae_link ae_targetId].
    split; [done|]. split; [|lia].
    simpl. rewrite Hnone. by destruct (node_map (nw_nodes network) !! s).
Qed.

(** Witness of C7: the link [A -> X] of [dangling_target]. *)
Lemma findPaths_traverses_dangling_witness :
  exists p, In p (findPaths dangling_target "A" None (hops 1)) /\
    mp_links p = [mk_link "A" "X" 5] /\
    mp_nodes p = present_nodes (node_map (nw_nodes dangling_target)) ["A"%string] /\
    mp_totalAmount p = 5.
Proof.
  apply (findPaths_traverses_dangling dangling_target "A" (hops 1) (mk_link "A" "X" 5)).
  - by left.
  - reflexivity.
  - reflexivity.
  - intros (n & [<-|[]] & Hn). discriminate Hn.
  - discriminate.
  - simpl. lia.
Defined.

(** C7 fails as stated: the returned path of [dangling_target] from [A]
    traverses the dangling link [A -> X]. *)
Lemma findPaths_traverses_dangling_counterexample :
  ~ is_node dangling_target "X" /\
  exists p, In p (findPaths dangling_target "A" None (hops 1)) /\
    In (mk_link "A" "X" 5) (mp_links p).
Proof.
  split.
  - intros (n & [<-|[]] & Hn). discriminate Hn.
  - vm_compute. eexists. split; [left; reflexivity|]. left. reflexivity.
Qed.

(** ** Graph analytics *)

Lemma balanced_flow_spec (received given : Z) :
  balanced_flow received given = true <->
  (inject_Z (Z.abs (received - given)) < inject_Z received * (2 # 10))%Q.
Proof.
  unfold balanced_flow. destruct (Qlt_le_dec _ _) as [Hlt|Hle].
  - done.
  - split; [discriminate|]. intros Hlt. exfalso. by apply (Qle_not_lt _ _ Hle).
Qed.

(** C3: [identifyShellOrgs(G)] keeps exactly the nodes of [G] of type
    [foundation] or [shell_org] with at least 1 incoming and 2 outgoing
    edges and [|received - given| < 0.2 * received], the figures being
    those of [getNodeStats]; with such counts, received 100 and given 119
    the node is flagged, with given 121 it is not. *)
Theorem identifyShellOrgs_spec :
  (forall network n,
     In n (identifyShellOrgs network) <->
     In n (nw_nodes network) /\
     (nd_type n = foundation \/ nd_type n = shell_org) /\
     (1 <= ns_incomingCount (getNodeStats network (nd_id n)))%nat /\
     (2 <= ns_outgoingCount (getNodeStats network (nd_id n)))%nat /\
     (inject_Z (Z.abs (ns_totalFundingReceived (getNodeStats network (nd_id n)) -
                       ns_totalFundingGiven (getNodeStats network (nd_id n)))) <
      inject_Z (ns_totalFundingReceived (getNodeStats network (nd_id n))) * (2 # 10))%Q) /\
  (forall network n,
     In n (nw_nodes network) ->
     (nd_type n = foundation \/ nd_type n = shell_org) ->
     (1 <= ns_incomingCount (getNodeStats network (nd_id n)))%nat ->
     (2 <= ns_outgoingCount (getNodeStats network (nd_id n)))%nat ->
     ns_totalFundingReceived (getNodeStats network (nd_id n)) = 100 ->
     ns_totalFundingGiven (getNodeStats network (nd_id n)) = 119 ->
     In n (identifyShellOrgs network)) /\
  (forall network n,
     ns_totalFundingReceived (getNodeStats network (nd_id n)) = 100 ->
     ns_totalFundingGiven (getNodeStats network (nd_id n)) = 121 ->
     ~ In n (identifyShellOrgs network)).
Proof.
  assert (Hiff : forall network n,
     In n (identifyShellOrgs network) <->
     In n (nw_nodes network) /\
     (nd_type n = foundation \/ nd_type n = shell_org) /\
     (1 <= ns_incomingCount (getNodeStats network (nd_id n)))%nat /\
     (2 <= ns_outgoingCount (getNodeStats network (nd_id n)))%nat /\
     (inject_Z (Z.abs (ns_totalFundingReceived (getNodeStats network (nd_id n)) -
                       ns_totalFundingGiven (getNodeStats network (nd_id n)))) <
      inject_Z (ns_totalFundingReceived (getNodeStats network (nd_id n))) * (2 # 10))%Q).
  { intros network n. unfold identifyShellOrgs. rewrite filter_In.
    unfold is_shell_candidate.
    assert (Htype : (negb (bool_decide (nd_type n = foundation)) &&
                     negb (bool_decide (nd_type n = shell_org)) = false) <->
                    (nd_type n = foundation \/ nd_type n = shell_org)).
    { destruct (nd_type n); simpl; split; intros H;
        first [done | by left | by right | destruct H as [H|H]; discriminate H]. }
    destruct (negb _ && negb _) eqn:Ht.
    - split; [intros [_ H]; discriminate H|].
      intros (_ & Hty & _). apply Htype in Hty. congruence.
    - rewrite !andb_true_iff, Nat.leb_le, Nat.leb_le, balanced_flow_spec.
      split.
      + intros [Hin [[H1 H2] H3]]. repeat split; try done. by apply Htype.
      + intros (Hin & _ & H1 & H2 & H3). done. }
  split; [exact Hiff|]. split.
  - intros network n Hin Hty H1 H2 Hr Hg. apply Hiff.
    repeat split; try done. rewrite Hr, Hg. vm_compute. reflexivity.
  - intros network n Hr Hg Hin. apply Hiff in Hin as (_ & _ & _ & _ & Hq).
    rewrite Hr, Hg in Hq. vm_compute in Hq. discriminate Hq.
Qed.

(** Witness of C3: the foundation [F] of [shell_net] is flagged. *)
Lemma identifyShellOrgs_spec_witness :
  In (mk_node "F" foundation) (identifyShellOrgs shell_net).
Proof.
  apply (proj1 (proj2 identifyShellOrgs_spec) shell_net (mk_node "F" foundation)).
  - right. by left.
  - by left.
  - vm_compute. lia.
  - vm_compute. lia.
  - reflexivity.
  - reflexivity.
Defined.

(** The 121 case on a concrete graph. *)
Example shell_net_121_not_flagged :
  identifyShellOrgs shell_net_121 = [].
Proof. vm_compute. reflexivity. Qed.

(** C6 (amended): [findSharedBoardMembers(a, b)] is empty when either node
    has no [boardMembers]; otherwise it is [b]'s list restricted to the
    members of [a]'s list, in [b]'s order; its elements are the members
    common to both lists, so it is symmetric as a set. *)
Theorem findSharedBoardMembers_spec :
  (forall a b, nd_boardMembers a = None \/ nd_boardMembers b = None ->
     findSharedBoardMembers a b = []) /\
  (forall a b la lb, nd_boardMembers a = Some la -> nd_boardMembers b = Some lb ->
     findSharedBoardMembers a b = List.filter (fun m => bool_decide (m ∈ la)) lb) /\
  (forall a b m, In m (findSharedBoardMembers a b) <->
     exists la lb, nd_boardMembers a = Some la /\ nd_boardMembers b = Some lb /\
                   In m la /\ In m lb) /\
  (forall a b m, In m (findSharedBoardMembers a b) <-> In m (findSharedBoardMembers b a)).
Proof.
  assert (Hfilter : forall a b la lb, nd_boardMembers a = Some la ->
     nd_boardMembers b = Some lb ->
     findSharedBoardMembers a b = List.filter (fun m => bool_decide (m ∈ la)) lb).
  { intros a b la lb Ha Hb. unfold findSharedBoardMembers. rewrite Ha, Hb.
    apply List.filter_ext. intros m. apply bool_decide_ext, elem_of_list_to_set. }
  assert (Hmem : forall a b m, In m (findSharedBoardMembers a b) <->
     exists la lb, nd_boardMembers a = Some la /\ nd_boardMembers b = Some lb /\
                   In m la /\ In m lb).
  { intros a b m.
    destruct (nd_boardMembers a) as [la|] eqn:Ha;
      [|unfold findSharedBoardMembers; rewrite Ha; split; [done|]; intros (? & ? & ? & _); done].
    destruct (nd_boardMembers b) as [lb|] eqn:Hb;
      [|unfold findSharedBoardMembers; rewrite Ha, Hb; split; [done|]; intros (? & ? & _ & ? & _); done].
    rewrite (Hfilter a b la lb Ha Hb), filter_In, bool_decide_eq_true, list_elem_of_In.
    split.
    - intros [Hb' Ha']. by exists la, lb.
    - intros (la' & lb' & Ha' & Hb' & H1 & H2). injection Ha' as <-. injection Hb' as <-. done. }
  split.
  { intros a b [H|H]; unfold findSharedBoardMembers; rewrite H; [done|].
    by destruct (nd_boardMembers a). }
  split; [exact Hfilter|]. split; [exact Hmem|].
  intros a b m. rewrite !Hmem. split.
  - intros (la & lb & Ha & Hb & H1 & H2). by exists lb, la.
  - intros (lb & la & Hb & Ha & H1 & H2). by exists la, lb.
Qed.

(** Witness of C6: [board_a] and [board_b]. *)
Lemma findSharedBoardMembers_spec_witness :
  findSharedBoardMembers board_a board_b =
  List.filter (fun m => bool_decide (m ∈ ["x"; "y"]%string)) ["y"; "x"]%string.
Proof.
  apply (proj1 (proj2 findSharedBoardMembers_spec) board_a board_b); reflexivity.
Defined.

(** C6 fails as stated: the intersection comes in the order of the second
    argument's list, not the first's. *)
Lemma findSharedBoardMembers_counterexample :
  findSharedBoardMembers board_a board_b = ["y"; "x"]%string /\
  findSharedBoardMembers board_a board_b <>
  List.filter (fun m => bool_decide (m ∈ ["y"; "x"]%string)) ["x"; "y"]%string.
Proof. vm_compute. split; [reflexivity|discriminate]. Qed.

(* ------------------------------------------------------------------ *)
(** ** Downstream recipients *)

Lemma assoc_find_update (k r : string) (f : Recipient -> Recipient)
    (m : list (string * Recipient)) :
  assoc_find r (assoc_update k f m) =
  if String.eqb k r then option_map f (assoc_find r m) else assoc_find r m.
Proof.
  induction m as [|[k' v] m IH]; simpl; [by destruct (String.eqb k r)|].
  destruct (String.eqb_spec k' k) as [->|Hne]; simpl.
  - destruct (String.eqb_spec k r); done.
  - rewrite IH. destruct (String.eqb_spec k' r) as [->|]; [|done].
    destruct (String.eqb_spec k r); congruence.
Qed.

Lemma assoc_find_snoc (r k : string) (v : Recipient) (m : list (string * Recipient)) :
  assoc_find r (m ++ [(k, v)]) =
  match assoc_find r m with
  | Some x => Some x
  | None => if String.eqb k r then Some v else None
  end.
Proof.
  induction m as [|[k' v'] m IH]; simpl; [by destruct (String.eqb k r)|].
  by destruct (String.eqb k' r).
Qed.

Lemma assoc_find_None (r : string) (m : list (string * Recipient)) :
  assoc_find r m = None <-> ~ In r (map fst m).
Proof.
  induction m as [|[k' v'] m IH]; simpl; [tauto|].
  destruct (String.eqb_spec k' r) as [->|Hne]; [split; [done|tauto]|].
  rewrite IH. intuition.
Qed.

Lemma assoc_find_In (r : string) (v : Recipient) (m : list (string * Recipient)) :
  NoDup (map fst m) -> assoc_find r m = Some v <-> In (r, v) m.
Proof.
  induction m as [|[k' v'] m IH]; simpl; [done|].
  intros Hnd. apply NoDup_cons in Hnd as [Hk Hnd].
  destruct (String.eqb_spec k' r) as [->|Hne].
  - split; [intros [= ->]; by left|].
    intros [[= ->]|Hin]; [done|].
    destruct Hk. apply list_elem_of_In, in_map_iff. by exists (r, v).
  - rewrite IH by done. split; [by right|]. intros [[= -> ->]|]; [done|done].
Qed.

Lemma assoc_update_keys (k : string) (f : Recipient -> Recipient)
    (m : list (string * Recipient)) :
  map fst (assoc_update k f m) = map fst m.
Proof.
  induction m as [|[k' v] m IH]; simpl; [done|].
  destruct (String.eqb k' k); simpl; by rewrite ?IH.
Qed.

Lemma assoc_update_In (k k' : string) (f : Recipient -> Recipient) (v' : Recipient)
    (m : list (string * Recipient)) :
  In (k', v') (assoc_update k f m) -> exists v, In (k', v) m /\ (v' = v \/ v' = f v).
Proof.
  induction m as [|[k0 v0] m IH]; simpl; [done|].
  destruct (String.eqb k0 k); simpl.
  - intros [Heq|Hin]; [injection Heq as <- <-; exists v0; auto|]. exists v'. auto.
  - intros [Heq|Hin]; [injection Heq as <- <-; exists v0; auto|].
    destruct (IH Hin) as (v & ? & ?). exists v. auto.
Qed.

Lemma add_path_spec (s : string) (m : list (string * Recipient)) (p : MoneyPath) :
  keys_ok s m -> mp_nodes p <> [] ->
  exists m', add_path s m p = Some m' /\ keys_ok s m' /\
    forall r, r <> s ->
      recipient_count (assoc_find r m') =
        (recipient_count (assoc_find r m) + if ends_at r p then 1 else 0)%nat /\
      recipient_total (assoc_find r m') =
        recipient_total (assoc_find r m) + (if ends_at r p then mp_totalAmount p else 0) /\
      (assoc_find r m' = None <-> assoc_find r m = None /\ ends_at r p = false).
Proof.
  intros [Hnd Hkv] Hne. unfold add_path, ends_at.
  destruct (last (mp_nodes p)) as [n|] eqn:Hl; [|by apply last_None in Hl].
  destruct (String.eqb_spec (nd_id n) s) as [Hs|Hs].
  - exists m. split; [done|]. split; [done|]. intros r Hr.
    destruct (String.eqb_spec (nd_id n) r); [congruence|].
    rewrite Nat.add_0_r, Z.add_0_r. tauto.
  - destruct (assoc_find (nd_id n) m) as [e|] eqn:Hf.
    + eexists. split; [done|]. split.
      * split; [by rewrite assoc_update_keys|].
        intros k v Hin. apply assoc_update_In in Hin as (v0 & Hin & [->| ->]); apply Hkv in Hin; done.
      * intros r Hr. rewrite assoc_find_update.
        destruct (String.eqb_spec (nd_id n) r) as [<-|Hnr].
        -- rewrite Hf. simpl. split; [lia|]. split; [lia|]. split; [done|]. by intros [? _].
        -- rewrite Nat.add_0_r, Z.add_0_r. tauto.
    + eexists. split; [done|]. split.
      * split.
        -- rewrite map_app. simpl. apply NoDup_app. split; [done|].
           split; [|apply NoDup_singleton].
           intros x Hx Hx2. apply list_elem_of_singleton in Hx2 as ->.
           apply assoc_find_None in Hf. apply Hf. by apply list_elem_of_In.
        -- intros k v Hin. apply in_app_or in Hin as [Hin|[Heq|[]]]; [by apply Hkv|].
           by injection Heq as <- <-.
      * intros r Hr. rewrite assoc_find_snoc.
        destruct (String.eqb_spec (nd_id n) r) as [<-|Hnr].
        -- rewrite Hf. simpl. split; [lia|]. split; [lia|]. split; [done|]. by intros [_ ?].
        -- destruct (assoc_find r m); rewrite Nat.add_0_r, Z.add_0_r; tauto.
Qed.

Lemma group_recipients_spec (s : string) (ps : list MoneyPath) (m : list (string * Recipient)) :
  keys_ok s m -> (forall p, In p ps -> mp_nodes p <> []) ->
  exists m', group_recipients s ps m = Some m' /\ keys_ok s m' /\
    forall r, r <> s ->
      recipient_count (assoc_find r m') =
        (recipient_count (assoc_find r m) + length (List.filter (ends_at r) ps))%nat /\
      recipient_total (assoc_find r m') =
        recipient_total (assoc_find r m) + paths_total (List.filter (ends_at r) ps) /\
      (assoc_find r m' = None <-> assoc_find r m = None /\ List.filter (ends_at r) ps = []).
Proof.
  revert m. induction ps as [|p ps IH]; intros m Hok Hne; simpl.
  - exists m. split; [done|]. split; [done|]. intros r _.
    rewrite Nat.add_0_r, Z.add_0_r. tauto.
  - destruct (add_path_spec s m p Hok (Hne p (or_introl eq_refl))) as (m1 & -> & Hok1 & H1).
    destruct (IH m1 Hok1) as (m2 & -> & Hok2 & H2); [intros q Hq; apply Hne; by right|].
    exists m2. split; [done|]. split; [done|]. intros r Hr.
    destruct (H1 r Hr) as (Hc1 & Ht1 & Hn1). destruct (H2 r Hr) as (Hc2 & Ht2 & Hn2).
    rewrite Hc2, Ht2, Hn2, Hc1, Ht1, Hn1.
    destruct (ends_at r p); simpl; (split; [lia|]); (split; [lia|]); naive_solver.
Qed.

Lemma findPaths_nodes_nonempty (network : DonorMediaNetwork) (s : string)
    (options : PathFinderOptions) (p : MoneyPath) :
  is_node network s -> In p (findPaths network s None options) -> mp_nodes p <> [].
Proof.
  intros Hs Hp. apply findPaths_sound in Hp as (j & [[rest Hj] _] & -> & _).
  simpl. rewrite Hj. intros Hnil.
  pose proof (present_nodes_head network s rest Hs) as H. by rewrite Hnil in H.
Qed.

(** C5 (amended): for a node [s] of [G], [getDownstreamRecipients(G, s, maxHops)]
    throws nothing and groups the paths of [findPaths(G, s, null, {maxHops})]
    by the last node of their resolved node list ([path.nodes], where ids
    that are not nodes of [G] are dropped), skipping those that end at [s]:
    it returns one entry per such end node, its [totalAmount] the sum of
    the amounts of the paths ending there and its [pathCount] their number,
    sorted by [totalAmount] descending; in particular when exactly one
    returned path ends at [r], with amount [A], the entry of [r] is
    [(r, A, 1)]. *)
Theorem getDownstreamRecipients_spec (network : DonorMediaNetwork) (s : string) (maxHops : Z) :
  is_node network s ->
  exists res, getDownstreamRecipients network s maxHops = Some res /\
    Sorted (amount_desc rc_totalAmount) res /\
    NoDup (map (fun e => nd_id (rc_node e)) res) /\
    (forall e, In e res -> nd_id (rc_node e) <> s) /\
    forall r, r <> s ->
      let P := List.filter (ends_at r) (findPaths network s None (downstream_options maxHops)) in
      ((exists e, In e res /\ nd_id (rc_node e) = r) <-> P <> []) /\
      (forall e, In e res -> nd_id (rc_node e) = r ->
         rc_pathCount e = length P /\ rc_totalAmount e = paths_total P) /\
      (forall p, P = [p] ->
         exists e, In e res /\ nd_id (rc_node e) = r /\
           rc_totalAmount e = mp_totalAmount p /\ rc_pathCount e = 1%nat).
Proof.
  intros Hs.
  set (ps := findPaths network s None (downstream_options maxHops)).
  destruct (group_recipients_spec s ps []) as (m & Hg & [Hnd Hkv] & Hm).
  { split; [constructor|done]. }
  { intros p Hp. by eapply findPaths_nodes_nonempty. }
  set (res := sort_desc rc_totalAmount (map snd m)).
  assert (Hin : forall e, In e res <-> In (nd_id (rc_node e), e) m).
  { intros e. unfold res. rewrite sort_desc_In, in_map_iff. split.
    - intros ([k v] & <- & Hkv'). simpl. by destruct (Hkv _ _ Hkv') as [-> _].
    - intros H. by exists (nd_id (rc_node e), e). }
  exists res.
  split; [unfold getDownstreamRecipients; fold ps; by rewrite Hg|].
  split; [apply sort_desc_sorted|].
  split.
  { assert (Hp : map (fun e => nd_id (rc_node e)) res ≡ₚ
                  map (fun e => nd_id (rc_node e)) (map snd m)).
    { apply Permutation_map, sort_desc_perm. }
    rewrite Hp, map_map. erewrite map_ext_in; [exact Hnd|].
    intros [k v] Hkv'. simpl. by destruct (Hkv _ _ Hkv'). }
  split; [intros e He; apply Hin, Hkv in He; tauto|].
  intros r Hr. destruct (Hm r Hr) as (Hc & Ht & Hn). cbv zeta. fold ps.
  set (P := List.filter (ends_at r) ps) in *. simpl in Hc, Ht, Hn.
  assert (Hfind : forall e, In e res -> nd_id (rc_node e) = r -> assoc_find r m = Some e).
  { intros e He <-. apply assoc_find_In; [done|]. by apply Hin. }
  assert (Hex : P <> [] -> exists e, In e res /\ nd_id (rc_node e) = r).
  { intros HP. destruct (assoc_find r m) as [e|] eqn:He; [|by destruct HP; apply Hn].
    apply assoc_find_In in He; [|done]. destruct (Hkv _ _ He) as [Hid _].
    exists e. split; [apply Hin; by rewrite Hid|done]. }
  assert (Hcount : forall e, In e res -> nd_id (rc_node e) = r ->
            rc_pathCount e = length P /\ rc_totalAmount e = paths_total P).
  { intros e He Her. rewrite (Hfind e He Her) in Hc, Ht. simpl in Hc, Ht. split; lia. }
  split; [split; [|done]|split; [done|]].
  - intros (e & He & Her) HP. pose proof (Hfind e He Her) as Hf.
    rewrite (proj2 Hn (conj eq_refl HP)) in Hf. discriminate.
  - intros p HP. destruct Hex as (e & He & Her); [by rewrite HP|].
    exists e. destruct (Hcount e He Her) as [H1 H2]. rewrite HP in H1, H2. simpl in H1, H2.
    split; [done|]. split; [done|]. split; lia.
Qed.

(** Witness of C5: [S] is a node of [tail_net]. *)
Lemma getDownstreamRecipients_spec_witness :
  is_node tail_net "S" /\ exists res, getDownstreamRecipients tail_net "S" 2 = Some res.
Proof.
  assert (Hs : is_node tail_net "S").
  { exists (mk_node "S" donor). split; [left; reflexivity|reflexivity]. }
  split; [exact Hs|].
  destruct (getDownstreamRecipients_spec tail_net "S" 2 Hs) as (res & Hres & _).
  exists res. exact Hres.
Defined.

(** C5 fails as stated: in [tail_net] the only path from [S] to [R] is the
    link [S -> R] of amount 10, yet [R] is reported with total 25 over two
    paths, since the walk [S, R, X] ends at [R] once [X] is dropped. *)
Lemma getDownstreamRecipients_counterexample :
  map (fun p => (map lk_target (mp_links p), mp_totalAmount p))
    (findPaths tail_net "S" None (downstream_options 2))
  = [(["R"; "X"], 15); (["R"], 10)]%string /\
  getDownstreamRecipients tail_net "S" 2 =
  Some [{| rc_node := mk_node "R" foundation; rc_totalAmount := 25; rc_pathCount := 2 |}].
Proof. vm_compute. split; reflexivity. Qed.

(* ------------------------------------------------------------------ *)
(** ** Force layout on an empty node list *)

Lemma layout_no_simulation (v : LayoutVersion) (evs : list LayoutEvent) (st : HookState) :
  hs_simulationRef st = None -> fold_left (layout_step v) evs st = st.
Proof.
  intros Hnone. induction evs as [|ev evs IH]; simpl; [done|].
  unfold layout_step at 2. rewrite Hnone. exact IH.
Qed.

(** C9: mounted on an empty node list, either copy of [useForceLayout]
    exposes empty [nodes] and [links] whatever callback is invoked
    afterwards, but [isSimulating] keeps its initial [true] forever, while
    a simulation that does run reports [false] once it ends. *)
Theorem useForceLayout_empty_input_simulating :
  (forall v inputLinks placed evs,
     let st := run_layout v [] inputLinks placed evs in
     hs_nodes st = [] /\ hs_links st = [] /\ hs_isSimulating st = true /\
     hs_simulationRef st = None) /\
  (forall v, hs_isSimulating
               (run_layout v [mk_node "A" donor] [] (fun _ => (0, 0)) [sim_end]) = false).
Proof.
  split.
  - intros v inputLinks placed evs. cbv zeta. unfold run_layout.
    rewrite layout_no_simulation by (destruct v; reflexivity).
    by destruct v.
  - intros []; reflexivity.
Qed.

(* ------------------------------------------------------------------ *)
(** ** Walks of the path finder *)

Lemma walk_from_snoc links f x steps e :
  walk_from links f x (steps ++ [e]) <->
  walk_from links f x steps /\ In e (adjacent_entries links f (walk_end x steps)).
Proof.
  revert x. induction steps as [|e0 steps IH]; intros x; simpl; [tauto|].
  rewrite IH. tauto.
Qed.

Lemma extend_fold_nodeId steps it :
  qi_nodeId (fold_left extend steps it) = walk_end (qi_nodeId it) steps.
Proof. revert it. induction steps as [|e steps IH]; intros it; simpl; [done|]. apply IH. Qed.

Lemma search_item_walk (network : DonorMediaNetwork) (s : string) (endId : option string)
    (options : PathFinderOptions) (j : QueueItem) :
  descends (buildAdjacencyMap network (po_filterByRelationship options))
    (node_map (nw_nodes network)) options endId (start_item s) j ->
  exists steps, j = fold_left extend steps (start_item s) /\
    walk_from (nw_links network) (po_filterByRelationship options) s steps /\
    Forall (type_admitted (node_map (nw_nodes network)) (po_filterByNodeType options)) steps.
Proof.
  intros Hd.
  cut (forall it, descends (buildAdjacencyMap network (po_filterByRelationship options))
         (node_map (nw_nodes network)) options endId it j ->
       forall steps0, it = fold_left extend steps0 (start_item s) ->
       walk_from (nw_links network) (po_filterByRelationship options) s steps0 ->
       Forall (type_admitted (node_map (nw_nodes network)) (po_filterByNodeType options)) steps0 ->
       exists steps, j = fold_left extend steps (start_item s) /\
         walk_from (nw_links network) (po_filterByRelationship options) s steps /\
         Forall (type_admitted (node_map (nw_nodes network)) (po_filterByNodeType options)) steps).
  { intros H. by apply (H _ Hd []). }
  clear Hd. induction 1 as [it|it c j Hc Hd IH]; intros steps0 Hit Hw Hadm.
  - by exists steps0.
  - apply step_snd in Hc. unfold successors in Hc.
    apply in_map_iff in Hc as (e & <- & He). apply filter_In in He as [He Hok].
    apply (IH (steps0 ++ [e])).
    + by rewrite fold_left_app, <- Hit.
    + apply walk_from_snoc. split; [done|].
      rewrite buildAdjacencyMap_lookup, Hit, extend_fold_nodeId in He. exact He.
    + apply Forall_app. split; [done|]. apply Forall_singleton.
      unfold neighbour_admitted in Hok. case_bool_decide; [done|].
      unfold type_admitted.
      destruct (po_filterByNodeType options), (node_map (nw_nodes network) !! ae_targetId e);
        try done. by apply bool_decide_eq_true in Hok.
Qed.

Lemma findPaths_walk (network : DonorMediaNetwork) (s : string) (endId : option string)
    (options : PathFinderOptions) (p : MoneyPath) :
  In p (findPaths network s endId options) ->
  exists steps,
    walk_from (nw_links network) (po_filterByRelationship options) s steps /\
    Forall (type_admitted (node_map (nw_nodes network)) (po_filterByNodeType options)) steps /\
    steps <> [] /\ NoDup (s :: map ae_targetId steps) /\
    Z.of_nat (length steps) <= po_maxHops options /\
    mp_nodes p = present_nodes (node_map (nw_nodes network)) (s :: map ae_targetId steps) /\
    mp_links p = map ae_link steps /\
    mp_totalAmount p = sum_amounts (map ae_link steps) /\
    mp_hopCount p = length steps /\
    (endId_truthy endId = true -> endId = Some (walk_end s steps)).
Proof.
  intros Hp. apply findPaths_sound_descends in Hp as (j & Hd & Hj).
  pose proof (descends_ok _ _ _ _ _ _ _ Hd (start_item_ok s)) as (_ & _ & Hnd & _).
  apply step_fst in Hj as (-> & Hlen & Hhop & Hend).
  apply search_item_walk in Hd as (steps & -> & Hw & Hadm).
  destruct (extend_fold_fields steps (start_item s)) as (Hn & Hl & Ht).
  rewrite Hn in Hnd, Hlen, Hhop. simpl in Hnd, Hlen, Hhop. rewrite length_map in Hlen, Hhop.
  exists steps. split; [done|]. split; [done|].
  split; [by destruct steps; simpl in Hlen; [lia|]|]. split; [done|]. split; [lia|].
  unfold to_path. simpl. rewrite Hn, Hl, Ht. simpl. split; [done|]. split; [done|].
  split; [done|]. split; [by rewrite length_map|].
  intros Htr. specialize (Hend Htr). rewrite extend_fold_nodeId in Hend. simpl in Hend.
  destruct endId as [e|]; [|done]. simpl in Hend.
  apply andb_prop in Hend as [_ He]. apply String.eqb_eq in He. by subst.
Qed.

Lemma adjacent_entries_In (links : list NetworkLink) (f : option (list string)) (x : string)
    (e : AdjEntry) :
  In e (adjacent_entries links f x) <->
  exists link, In link links /\ relationship_allowed f link = true /\
    ((lk_source link = x /\ e = {| ae_targetId := lk_target link; ae_link := link |}) \/
     (lk_target link = x /\ e = {| ae_targetId := lk_source link; ae_link := link |})).
Proof.
  unfold adjacent_entries. rewrite in_flat_map. split.
  - intros (link & Hl & He). apply filter_In in Hl as [Hl Ha].
    exists link. split; [done|]. split; [done|].
    unfold link_entries in He. apply in_app_or in He as [He|He].
    + destruct (String.eqb_spec (lk_source link) x); [|done].
      destruct He as [<-|[]]. by left.
    + destruct (String.eqb_spec (lk_target link) x); [|done].
      destruct He as [<-|[]]. by right.
  - intros (link & Hl & Ha & He). exists link. split; [by apply filter_In|].
    unfold link_entries. apply in_or_app.
    destruct He as [[Hs ->]|[Ht ->]].
    + left. rewrite Hs, String.eqb_refl. by left.
    + right. rewrite Ht, String.eqb_refl. by left.
Qed.

Lemma walk_from_links_join links f x steps :
  walk_from links f x steps ->
  links_join (x :: map ae_targetId steps) (map ae_link steps) /\
  Forall (fun l => In l links /\ relationship_allowed f l = true) (map ae_link steps).
Proof.
  revert x. induction steps as [|e steps IH]; intros x; simpl; [done|].
  intros [He Hw]. destruct (IH _ Hw) as [Hj Hf].
  apply adjacent_entries_In in He as (link & Hl & Ha & [[Hs ->]|[Ht ->]]); simpl in *.
  - split; [|by constructor]. split; [|done]. by left.
  - split; [|by constructor]. split; [|done]. by right.
Qed.

Lemma present_nodes_In (nm : gmap string NetworkNode) (ids : list string) (n : NetworkNode) :
  In n (present_nodes nm ids) <-> exists id, In id ids /\ nm !! id = Some n.
Proof.
  induction ids as [|id ids IH]; simpl; [firstorder|].
  destruct (nm !! id) as [m|] eqn:Hm; simpl; rewrite IH; split.
  - intros [<-|(i & Hi & Hn)]; [by exists id; auto|]. exists i; auto.
  - intros (i & [<-|Hi] & Hn); [left; congruence|]. right. by exists i.
  - intros (i & Hi & Hn). exists i; auto.
  - intros (i & [<-|Hi] & Hn); [congruence|]. by exists i.
Qed.

Lemma walk_end_In x steps : steps <> [] -> In (walk_end x steps) (map ae_targetId steps).
Proof.
  revert x. induction steps as [|e steps IH]; intros x Hne; [done|]. simpl.
  destruct steps as [|e' steps']; [by left|]. right. by apply IH.
Qed.

(** Extra: the adjacency list of [x] holds exactly one entry towards the
    target of each link with source [x] and one towards the source of each
    link with target [x], among the links whose relationship passes the
    filter. *)
Theorem buildAdjacencyMap_entries (network : DonorMediaNetwork)
    (filterByRelationship : option (list string)) (x : string) (e : AdjEntry) :
  In e (default [] (buildAdjacencyMap network filterByRelationship !! x)) <->
  exists link, In link (nw_links network) /\
    (forall rs, filterByRelationship = Some rs -> In (lk_relationship link) rs) /\
    ((lk_source link = x /\ e = {| ae_targetId := lk_target link; ae_link := link |}) \/
     (lk_target link = x /\ e = {| ae_targetId := lk_source link; ae_link := link |})).
Proof.
  rewrite buildAdjacencyMap_lookup, adjacent_entries_In.
  split; intros (link & Hl & Ha & He); exists link; (split; [done|]); (split; [|done]).
  - intros rs ->. simpl in Ha. apply bool_decide_eq_true in Ha. by apply list_elem_of_In.
  - unfold relationship_allowed. destruct filterByRelationship as [rs|]; [|done].
    apply bool_decide_eq_true, list_elem_of_In. by apply Ha.
Qed.

(** Extra: every path [findPaths] returns resolves the nodes of a walk
    without repeated ids that starts at [startId], whose consecutive ids are
    joined, in order, by the path's links (followed in either direction),
    all links of the network. *)
Theorem findPaths_paths_are_walks (network : DonorMediaNetwork) (s : string)
    (endId : option string) (options : PathFinderOptions) (p : MoneyPath) :
  In p (findPaths network s endId options) ->
  exists ids, head ids = Some s /\ NoDup ids /\
    mp_nodes p = present_nodes (node_map (nw_nodes network)) ids /\
    links_join ids (mp_links p) /\
    Forall (fun l => In l (nw_links network)) (mp_links p).
Proof.
  intros Hp. apply findPaths_walk in Hp as (steps & Hw & _ & _ & Hnd & _ & Hn & Hl & _).
  destruct (walk_from_links_join _ _ _ _ Hw) as [Hj Hf].
  exists (s :: map ae_targetId steps). split; [done|]. split; [done|]. split; [done|].
  rewrite Hl. split; [done|]. eapply Forall_impl; [exact Hf|]. by intros l [? _].
Qed.

Lemma findPaths_paths_are_walks_witness :
  In path_abc (findPaths chain_abc "A" (Some "C"%string) typed_hops) /\
  exists ids, head ids = Some "A"%string /\ NoDup ids /\
    mp_nodes path_abc = present_nodes (node_map (nw_nodes chain_abc)) ids /\
    links_join ids (mp_links path_abc) /\
    Forall (fun l => In l (nw_links chain_abc)) (mp_links path_abc).
Proof.
  assert (H : In path_abc (findPaths chain_abc "A" (Some "C"%string) typed_hops))
    by (vm_compute; left; reflexivity).
  split; [exact H|]. exact (findPaths_paths_are_walks _ _ _ _ _ H).
Defined.

(** Extra: on every returned path, each link has a relationship of
    [filterByRelationship] when it is given, and each node other than the
    start has a type of [filterByNodeType] when it is given. *)
Theorem findPaths_respects_filters (network : DonorMediaNetwork) (s : string)
    (endId : option string) (options : PathFinderOptions) (p : MoneyPath) :
  In p (findPaths network s endId options) ->
  (forall rs link, po_filterByRelationship options = Some rs -> In link (mp_links p) ->
     In (lk_relationship link) rs) /\
  (forall types n, po_filterByNodeType options = Some types -> In n (mp_nodes p) ->
     nd_id n <> s -> In (nd_type n) types).
Proof.
  intros Hp. apply findPaths_walk in Hp as (steps & Hw & Hadm & _ & _ & _ & Hn & Hl & _).
  destruct (walk_from_links_join _ _ _ _ Hw) as [_ Hf]. split.
  - intros rs link Hrs Hlink. rewrite Hl in Hlink.
    eapply Forall_forall in Hf as [_ Ha]; [|by apply list_elem_of_In].
    rewrite Hrs in Ha. simpl in Ha. apply bool_decide_eq_true in Ha. by apply list_elem_of_In.
  - intros types n Htypes Hin Hid. rewrite Hn in Hin.
    apply present_nodes_In in Hin as (id & [<-|Hid'] & Hnm).
    + apply node_map_lookup in Hnm as [_ Heq]. done.
    + apply in_map_iff in Hid' as (e & <- & He).
      eapply Forall_forall in Hadm; [|by apply list_elem_of_In].
      unfold type_admitted in Hadm. rewrite Htypes, Hnm in Hadm. by apply list_elem_of_In.
Qed.

Lemma findPaths_respects_filters_witness :
  In path_abc (findPaths chain_abc "A" (Some "C"%string) typed_hops) /\
  (forall rs link, po_filterByRelationship typed_hops = Some rs -> In link (mp_links path_abc) ->
     In (lk_relationship link) rs) /\
  (forall types n, po_filterByNodeType typed_hops = Some types -> In n (mp_nodes path_abc) ->
     nd_id n <> "A"%string -> In (nd_type n) types).
Proof.
  assert (H : In path_abc (findPaths chain_abc "A" (Some "C"%string) typed_hops))
    by (vm_compute; left; reflexivity).
  split; [exact H|]. exact (findPaths_respects_filters _ _ _ _ _ H).
Defined.

(** Extra: on every returned path, [totalAmount] is the sum of
    [amount || 0] over its links and [hopCount] is the number of its
    links, at least 1. *)
Theorem findPaths_amounts (network : DonorMediaNetwork) (s : string)
    (endId : option string) (options : PathFinderOptions) (p : MoneyPath) :
  In p (findPaths network s endId options) ->
  mp_totalAmount p = sum_amounts (mp_links p) /\
  mp_hopCount p = length (mp_links p) /\ (1 <= mp_hopCount p)%nat.
Proof.
  intros Hp. apply findPaths_walk in Hp as (steps & _ & _ & Hne & _ & _ & _ & Hl & Ht & Hh & _).
  rewrite Ht, Hh, Hl, length_map. split; [done|]. split; [done|].
  destruct steps; [done|]. simpl. lia.
Qed.

Lemma findPaths_amounts_witness :
  In path_abc (findPaths chain_abc "A" (Some "C"%string) typed_hops) /\
  mp_totalAmount path_abc = sum_amounts (mp_links path_abc) /\
  mp_hopCount path_abc = length (mp_links path_abc) /\ (1 <= mp_hopCount path_abc)%nat.
Proof.
  assert (H : In path_abc (findPaths chain_abc "A" (Some "C"%string) typed_hops))
    by (vm_compute; left; reflexivity).
  split; [exact H|]. exact (findPaths_amounts _ _ _ _ _ H).
Defined.

(** A non-empty target equal to the start is never reached again: a path
    ending at it would visit it twice. *)
Lemma findPaths_self_target_nil (network : DonorMediaNetwork) (s : string)
    (options : PathFinderOptions) :
  s <> ""%string -> findPaths network s (Some s) options = [].
Proof.
  intros Hs. destruct (findPaths network s (Some s) options) as [|p ps] eqn:Hf; [done|].
  assert (Hp : In p (findPaths network s (Some s) options)) by (rewrite Hf; by left).
  apply findPaths_walk in Hp as (steps & _ & _ & Hne & Hnd & _ & _ & _ & _ & _ & Hend).
  simpl in Hend. apply String.eqb_neq in Hs. rewrite Hs in Hend.
  specialize (Hend eq_refl) as [= Hse].
  apply NoDup_cons in Hnd as [Hnot _]. destruct Hnot.
  apply list_elem_of_In. rewrite Hse at 1. by apply walk_end_In.
Qed.

(** Extra: asked for paths from a non-empty id to itself, [findPaths]
    returns none. *)
Theorem findPaths_to_self_empty (network : DonorMediaNetwork) (s : string)
    (options : PathFinderOptions) :
  s <> ""%string -> findPaths network s (Some s) options = [].
Proof. exact (findPaths_self_target_nil network s options). Qed.

Lemma findPaths_to_self_empty_witness :
  "A"%string <> ""%string /\ findPaths chain_abc "A" (Some "A"%string) (hops 3) = [].
Proof.
  assert (H : "A"%string <> ""%string) by discriminate.
  split; [exact H|]. exact (findPaths_to_self_empty chain_abc "A" (hops 3) H).
Defined.

(** A search whose [endId] is [""] runs as one with no target: [""] is
    falsy for both [endId && ...] and [!endId]. *)
Lemma bfs_empty_endId adjacencyMap nodeMap options fuel queue paths :
  bfs adjacencyMap nodeMap options (Some ""%string) fuel queue paths =
  bfs adjacencyMap nodeMap options None fuel queue paths.
Proof.
  revert queue paths. induction fuel as [|fuel IH]; intros queue paths; [done|].
  destruct queue as [|current rest]; [done|]. simpl.
  replace (step adjacencyMap nodeMap options (Some ""%string) current)
    with (step adjacencyMap nodeMap options None current) by reflexivity.
  destruct (step adjacencyMap nodeMap options None current). apply IH.
Qed.

(** C10 (amended): for every graph and options, [findPaths(G, s, s, options)]
    returns no path when [s] is a non-empty id; with [s = ""] the target is
    ignored ([""] is falsy) and the search is the one with [endId = null]. *)
Theorem findPaths_same_endpoints (network : DonorMediaNetwork)
    (options : PathFinderOptions) :
  (forall s, s <> ""%string -> findPaths network s (Some s) options = []) /\
  findPaths network "" (Some ""%string) options = findPaths network "" None options.
Proof.
  split; [intros s Hs; by apply findPaths_self_target_nil|].
  unfold findPaths. by rewrite bfs_empty_endId.
Qed.

(** C10 fails as stated: in a graph with a node whose id is [""] and a link
    from it to [B], [findPaths(G, "", "", {maxHops: 1})] returns the path
    [["", B]]. *)
Lemma findPaths_same_endpoints_counterexample :
  findPaths empty_id_net "" (Some ""%string) (hops 1) <> [] /\
  map (fun p => map nd_id (mp_nodes p)) (findPaths empty_id_net "" (Some ""%string) (hops 1))
  = [[""; "B"]]%string.
Proof. split; vm_compute; [discriminate|reflexivity]. Qed.

(* ------------------------------------------------------------------ *)
(** ** Intermediaries *)

Lemma add_all_elem {A} (g : A -> string) (l : list A) (acc : gset string) (x : string) :
  x ∈ add_all g l acc <-> x ∈ acc \/ exists y, In y l /\ g y = x.
Proof.
  unfold add_all. revert acc. induction l as [|y l IH]; intros acc; simpl.
  - split; [by left|]. by intros [|(? & [] & _)].
  - rewrite IH, elem_of_union, elem_of_singleton. split.
    + intros [[->|]|(z & Hz & <-)]; [right; by exists y; auto|by left|right; by exists z; auto].
    + intros [|(z & [<-|Hz] & <-)]; [left; by right|left; by left|right; by exists z].
Qed.

Lemma fold_add_all_elem {A B} (g : A -> string) (f : B -> list A) (l : list B)
    (acc : gset string) (x : string) :
  x ∈ fold_left (fun acc b => add_all g (f b) acc) l acc <->
  x ∈ acc \/ exists b y, In b l /\ In y (f b) /\ g y = x.
Proof.
  revert acc. induction l as [|b l IH]; intros acc; simpl.
  - split; [by left|]. by intros [|(? & ? & [] & _)].
  - rewrite IH, add_all_elem. split.
    + intros [[|(y & Hy & <-)]|(c & y & Hc & Hy & <-)]; [by left|right; by exists b, y; auto|].
      right. exists c, y; auto.
    + intros [|(c & y & [<-|Hc] & Hy & <-)]; [left; by left|left; right; by exists y|].
      right. by exists c, y.
Qed.

Lemma In_removelast {A} (l : list A) (x : A) : In x (removelast l) -> In x l.
Proof.
  induction l as [|a l IH]; simpl; [done|].
  destruct l as [|b l]; [done|]. intros [<-|H]; [by left|right; auto].
Qed.

Lemma walk_ids_snoc x steps :
  x :: map ae_targetId steps = removelast (x :: map ae_targetId steps) ++ [walk_end x steps].
Proof.
  revert x. induction steps as [|e steps IH]; intros x; [done|].
  simpl map. change (removelast (x :: ae_targetId e :: map ae_targetId steps))
    with (x :: removelast (ae_targetId e :: map ae_targetId steps)).
  simpl walk_end. rewrite <- app_comm_cons, <- IH. done.
Qed.

Lemma present_nodes_le1 (nm : gmap string NetworkNode) (x : string) :
  (length (present_nodes nm [x]) <= 1)%nat.
Proof. simpl. destruct (nm !! x); simpl; lia. Qed.

Lemma in_tail_sub {A} (B C : list A) (x : A) :
  (length B <= 1)%nat -> In x (tail (B ++ C)) -> In x C.
Proof.
  intros HB. destruct B as [|b [|b' B]]; simpl in *; [|done|lia].
  destruct C; simpl; [done|]. by right.
Qed.

Lemma in_removelast_sub {A} (B C : list A) (x : A) :
  (length C <= 1)%nat -> In x (removelast (tail (B ++ C))) -> In x B.
Proof.
  intros HC. destruct B as [|a B]; simpl.
  - destruct C as [|c [|c' C]]; simpl in *; [done|done|lia].
  - intros Hx. right. destruct C as [|c [|c' C]]; simpl in *; [|rewrite removelast_last in Hx|lia].
    + rewrite app_nil_r in Hx. by apply In_removelast.
    + done.
Qed.

Lemma inner_ids_exclude (network : DonorMediaNetwork) (s : string) (endId : option string)
    (options : PathFinderOptions) (p : MoneyPath) (x : string) :
  In p (findPaths network s endId options) -> In x (inner_ids p) ->
  x <> s /\ (endId_truthy endId = true -> endId <> Some x).
Proof.
  intros Hp Hx. apply findPaths_walk in Hp as (steps & _ & _ & Hne & Hnd & _ & Hn & _ & _ & _ & Hend).
  unfold inner_ids in Hx. rewrite Hn in Hx.
  apply in_map_iff in Hx as (n & <- & Hn').
  split.
  - change (s :: map ae_targetId steps) with ([s] ++ map ae_targetId steps) in Hn'.
    rewrite present_nodes_app in Hn'. apply In_removelast, in_tail_sub in Hn';
      [|apply present_nodes_le1].
    intros Heq. apply NoDup_cons in Hnd as [Hs _]. apply Hs, list_elem_of_In.
    rewrite <- Heq. apply present_nodes_ids with (nw_nodes network).
    apply in_map. exact Hn'.
  - intros Htr He. specialize (Hend Htr). rewrite He in Hend. injection Hend as Hx.
    rewrite walk_ids_snoc in Hn', Hnd. rewrite present_nodes_app in Hn'.
    apply in_removelast_sub in Hn'; [|apply present_nodes_le1].
    apply NoDup_app in Hnd as (_ & Hdis & _).
    apply (Hdis (nd_id n)).
    + apply list_elem_of_In, present_nodes_ids with (nw_nodes network), in_map, Hn'.
    + rewrite Hx. by apply list_elem_of_singleton.
Qed.

(** Extra: for a non-empty [endId], [findIntermediaries] returns the
    network nodes whose id is an inner node of a path from [startId] to
    [endId], and none of them has the id [startId] or [endId]. *)
Theorem findIntermediaries_spec (network : DonorMediaNetwork) (startId endId : string)
    (maxHops : Z) (Hend : endId <> ""%string) :
  (forall n, In n (findIntermediaries network startId endId maxHops) <->
     In n (nw_nodes network) /\
     exists p, In p (findPaths network startId (Some endId) (downstream_options maxHops)) /\
       In (nd_id n) (inner_ids p)) /\
  Forall (fun n => nd_id n <> startId /\ nd_id n <> endId)
    (findIntermediaries network startId endId maxHops).
Proof.
  assert (Hspec : forall n, In n (findIntermediaries network startId endId maxHops) <->
     In n (nw_nodes network) /\
     exists p, In p (findPaths network startId (Some endId) (downstream_options maxHops)) /\
       In (nd_id n) (inner_ids p)).
  { intros n. unfold findIntermediaries. rewrite filter_In, bool_decide_eq_true.
    rewrite fold_add_all_elem. split.
    - intros [Hn [Hempty|(p & y & Hp & Hy & <-)]]; [set_solver|]. split; [done|by exists p].
    - intros [Hn (p & Hp & Hy)]. split; [done|]. right. by exists p, (nd_id n). }
  split; [exact Hspec|].
  apply List.Forall_forall. intros n Hn. apply Hspec in Hn as (_ & p & Hp & Hx).
  destruct (inner_ids_exclude _ _ _ _ _ _ Hp Hx) as [Hs Ht].
  split; [done|]. intros He. apply (Ht); [|by rewrite He].
  simpl. by apply String.eqb_neq in Hend as ->.
Qed.

Lemma findIntermediaries_spec_witness :
  "C"%string <> ""%string /\
  (forall n, In n (findIntermediaries chain_abc "A" "C" 3) <->
     In n (nw_nodes chain_abc) /\
     exists p, In p (findPaths chain_abc "A" (Some "C"%string) (downstream_options 3)) /\
       In (nd_id n) (inner_ids p)) /\
  Forall (fun n => nd_id n <> "A"%string /\ nd_id n <> "C"%string)
    (findIntermediaries chain_abc "A" "C" 3).
Proof.
  assert (H : "C"%string <> ""%string) by discriminate.
  split; [exact H|]. exact (findIntermediaries_spec chain_abc "A" "C" 3 H).
Defined.

(* ------------------------------------------------------------------ *)
(** ** Money trail explorer *)

(** Extra: with a start entity selected, the explorer shows the filtered
    network when [findPaths] finds no path; otherwise exactly the filtered
    nodes whose id is on a path and the filtered links whose
    [source-target] key is that of a path link, which includes every node
    and link of every path. *)
Theorem displayNetwork_paths (data : DonorMediaNetwork) (sel : FeedSelection) (s : string)
    (Hs : fs_startEntity sel = Some s) (Hne : s <> ""%string) :
  let filtered := feed_filtered data sel in
  let paths := findPaths filtered s (fs_endEntity sel) (feed_path_options sel) in
  let shown := displayNetwork (Some data) sel in
  (paths = [] -> shown = filtered) /\
  (paths <> [] ->
    (forall n, In n (nw_nodes shown) <->
       In n (nw_nodes filtered) /\ exists p m, In p paths /\ In m (mp_nodes p) /\ nd_id m = nd_id n) /\
    (forall l, In l (nw_links shown) <->
       In l (nw_links filtered) /\ exists p l', In p paths /\ In l' (mp_links p) /\ link_key l' = link_key l) /\
    Forall (fun p => incl (mp_nodes p) (nw_nodes shown) /\ incl (mp_links p) (nw_links shown)) paths).
Proof.
  cbv zeta. unfold displayNetwork. rewrite Hs. apply String.eqb_neq in Hne. rewrite Hne.
  set (filtered := feed_filtered data sel).
  set (paths := findPaths filtered s (fs_endEntity sel) (feed_path_options sel)).
  assert (Hnodes : forall p n, In p paths -> In n (mp_nodes p) -> In n (nw_nodes filtered)).
  { intros p n Hp Hn. apply findPaths_walk in Hp as (steps & _ & _ & _ & _ & _ & Hns & _).
    rewrite Hns in Hn. apply present_nodes_In in Hn as (id & _ & Hid).
    by apply node_map_lookup in Hid as [? _]. }
  assert (Hlinks : forall p l, In p paths -> In l (mp_links p) -> In l (nw_links filtered)).
  { intros p l Hp Hl. apply findPaths_walk in Hp as (steps & Hw & _ & _ & _ & _ & _ & Hls & _).
    destruct (walk_from_links_join _ _ _ _ Hw) as [_ Hf]. rewrite Hls in Hl.
    eapply Forall_forall in Hf as [? _]; [done|]. by apply list_elem_of_In. }
  destruct paths as [|p0 ps] eqn:Hpaths; [split; [done|]; by intros []|].
  split; [discriminate|]. intros _. rewrite <- Hpaths in Hnodes, Hlinks |- *.
  assert (Hn : forall n, In n (List.filter (fun n => bool_decide (nd_id n ∈
                 fold_left (fun acc path => add_all nd_id (mp_nodes path) acc) paths ∅))
                 (nw_nodes filtered)) <->
       In n (nw_nodes filtered) /\ exists p m, In p paths /\ In m (mp_nodes p) /\ nd_id m = nd_id n).
  { intros n. rewrite filter_In, bool_decide_eq_true, fold_add_all_elem. set_solver. }
  assert (Hl : forall l, In l (List.filter (fun l => bool_decide (link_key l ∈
                 fold_left (fun acc path => add_all link_key (mp_links path) acc) paths ∅))
                 (nw_links filtered)) <->
       In l (nw_links filtered) /\ exists p l', In p paths /\ In l' (mp_links p) /\ link_key l' = link_key l).
  { intros l. rewrite filter_In, bool_decide_eq_true, fold_add_all_elem. set_solver. }
  split; [exact Hn|]. split; [exact Hl|].
  apply List.Forall_forall. intros p Hp. split; intros x Hx; simpl.
  - apply Hn. split; [by eapply Hnodes|]. by exists p, x.
  - apply Hl. split; [by eapply Hlinks|]. by exists p, x.
Qed.

Lemma displayNetwork_paths_witness :
  fs_startEntity sel_from_A = Some "A"%string /\ "A"%string <> ""%string /\
  let filtered := feed_filtered chain_abc sel_from_A in
  let paths := findPaths filtered "A" (fs_endEntity sel_from_A) (feed_path_options sel_from_A) in
  let shown := displayNetwork (Some chain_abc) sel_from_A in
  (paths = [] -> shown = filtered) /\
  (paths <> [] ->
    (forall n, In n (nw_nodes shown) <->
       In n (nw_nodes filtered) /\ exists p m, In p paths /\ In m (mp_nodes p) /\ nd_id m = nd_id n) /\
    (forall l, In l (nw_links shown) <->
       In l (nw_links filtered) /\ exists p l', In p paths /\ In l' (mp_links p) /\ link_key l' = link_key l) /\
    Forall (fun p => incl (mp_nodes p) (nw_nodes shown) /\ incl (mp_links p) (nw_links shown)) paths).
Proof.
  assert (Hs : fs_startEntity sel_from_A = Some "A"%string) by reflexivity.
  assert (Hne : "A"%string <> ""%string) by discriminate.
  split; [exact Hs|]. split; [exact Hne|].
  exact (displayNetwork_paths chain_abc sel_from_A "A" Hs Hne).
Defined.

Lemma displayNetwork_sub (data : DonorMediaNetwork) (sel : FeedSelection) :
  incl (nw_nodes (displayNetwork (Some data) sel)) (nw_nodes (feed_filtered data sel)) /\
  incl (nw_links (displayNetwork (Some data) sel)) (nw_links (feed_filtered data sel)).
Proof.
  unfold displayNetwork. destruct (fs_startEntity sel) as [s|]; [|split; apply incl_refl].
  destruct (String.eqb s ""); [split; apply incl_refl|].
  destruct (findPaths _ _ _ _); [split; apply incl_refl|]. simpl.
  split; intros x Hx; by apply filter_In in Hx as [? _].
Qed.

(** Extra: the explorer shows only nodes and links of the data, every
    link passes the relationship filter, and with a node-type filter every
    node and both ends of every link have a selected type. *)
Theorem displayNetwork_respects_filters (data : DonorMediaNetwork) (sel : FeedSelection) :
  let shown := displayNetwork (Some data) sel in
  incl (nw_nodes shown) (nw_nodes data) /\ incl (nw_links shown) (nw_links data) /\
  Forall (fun l => fs_filterRelationships sel = [] \/
                   In (lk_relationship l) (fs_filterRelationships sel)) (nw_links shown) /\
  Forall (fun n => fs_filterNodeTypes sel = [] \/ In (nd_type n) (fs_filterNodeTypes sel))
    (nw_nodes shown) /\
  Forall (fun l => fs_filterNodeTypes sel = [] \/
    exists a b, In a (nw_nodes data) /\ In b (nw_nodes data) /\
      nd_id a = lk_source l /\ nd_id b = lk_target l /\
      In (nd_type a) (fs_filterNodeTypes sel) /\ In (nd_type b) (fs_filterNodeTypes sel))
    (nw_links shown).
Proof.
  cbv zeta. destruct (displayNetwork_sub data sel) as [Hn Hl].
  set (shown := displayNetwork (Some data) sel) in *.
  assert (Hrel : forall l, In l (nw_links (feed_filtered data sel)) ->
            In l (nw_links data) /\
            (fs_filterRelationships sel = [] \/ In (lk_relationship l) (fs_filterRelationships sel))).
  { intros l. unfold feed_filtered.
    assert (Hlinks : forall l, In l (if bool_decide (fs_filterRelationships sel = []) then nw_links data
        else List.filter (fun l => bool_decide (lk_relationship l ∈ fs_filterRelationships sel))
           (nw_links data)) -> In l (nw_links data) /\
            (fs_filterRelationships sel = [] \/ In (lk_relationship l) (fs_filterRelationships sel))).
    { intros l'. case_bool_decide; [by auto|].
      rewrite filter_In, bool_decide_eq_true, list_elem_of_In. tauto. }
    destruct (bool_decide (fs_filterNodeTypes sel = [])); simpl; [apply Hlinks|].
    rewrite filter_In. intros [? _]. by apply Hlinks. }
  assert (Htypes : forall n, In n (nw_nodes (feed_filtered data sel)) ->
            In n (nw_nodes data) /\
            (fs_filterNodeTypes sel = [] \/ In (nd_type n) (fs_filterNodeTypes sel))).
  { intros n. unfold feed_filtered.
    destruct (bool_decide (fs_filterNodeTypes sel = [])) eqn:Hb; simpl;
      [apply bool_decide_eq_true in Hb; by auto|].
    rewrite filter_In, bool_decide_eq_true, list_elem_of_In. tauto. }
  assert (Hends : forall l, In l (nw_links (feed_filtered data sel)) ->
            fs_filterNodeTypes sel = [] \/
    exists a b, In a (nw_nodes data) /\ In b (nw_nodes data) /\
      nd_id a = lk_source l /\ nd_id b = lk_target l /\
      In (nd_type a) (fs_filterNodeTypes sel) /\ In (nd_type b) (fs_filterNodeTypes sel)).
  { intros l. unfold feed_filtered.
    destruct (bool_decide (fs_filterNodeTypes sel = [])) eqn:Hb0; simpl;
      [apply bool_decide_eq_true in Hb0; by auto|].
    rewrite filter_In. intros [_ Hb]. right.
    apply andb_prop in Hb as [Ha Hb]. apply bool_decide_eq_true in Ha, Hb.
    apply elem_of_list_to_set, list_elem_of_In, in_map_iff in Ha as (a & Ha & Hain).
    apply elem_of_list_to_set, list_elem_of_In, in_map_iff in Hb as (b & Hb & Hbin).
    apply filter_In in Hain as [Hain Hta], Hbin as [Hbin Htb].
    apply bool_decide_eq_true, list_elem_of_In in Hta, Htb. by exists a, b. }
  split; [intros n Hx; by apply Htypes, Hn|].
  split; [intros l Hx; by apply Hrel, Hl|].
  split; [apply List.Forall_forall; intros l Hx; by apply Hrel, Hl|].
  split; [apply List.Forall_forall; intros n Hx; by apply Htypes, Hn|].
  apply List.Forall_forall; intros l Hx; by apply Hends, Hl.
Qed.

Lemma fold_dedup_spec (l acc : list string) :
  NoDup acc ->
  let res := fold_left (fun acc r => if bool_decide (r ∈ acc) then acc else acc ++ [r]) l acc in
  NoDup res /\ (forall r, In r res <-> In r acc \/ In r l).
Proof.
  revert acc. induction l as [|x l IH]; intros acc Hnd; simpl; [split; [done|]; tauto|].
  case_bool_decide as Hx.
  - destruct (IH acc Hnd) as [Hnd' Hin]. split; [done|]. intros r. rewrite Hin.
    apply list_elem_of_In in Hx. split; [tauto|]. intros [|[<-|]]; auto.
  - assert (Hnd2 : NoDup (acc ++ [x])).
    { apply NoDup_app. split; [done|]. split; [|apply NoDup_singleton].
      intros y Hy Hy2. apply list_elem_of_singleton in Hy2 as ->. done. }
    destruct (IH _ Hnd2) as [Hnd' Hin]. split; [done|]. intros r. rewrite Hin, in_app_iff.
    simpl. tauto.
Qed.

(** Extra: [relationshipTypes] lists each relationship of the links
    exactly once, and nothing else. *)
Theorem relationshipTypes_spec (data : DonorMediaNetwork) :
  NoDup (relationshipTypes (Some data)) /\
  forall r, In r (relationshipTypes (Some data)) <->
    exists l, In l (nw_links data) /\ lk_relationship l = r.
Proof.
  destruct (fold_dedup_spec (map lk_relationship (nw_links data)) [] (NoDup_nil_2)) as [Hnd Hin].
  split; [exact Hnd|]. intros r. simpl. rewrite Hin, in_map_iff. simpl.
  split; [intros [[]|(l & ? & ?)]; by exists l|intros (l & ? & ?); right; by exists l].
Qed.

(* ------------------------------------------------------------------ *)
(** ** Network view filters *)

Lemma activeNodeIds_elem (links : list NetworkLink) (x : string) :
  x ∈ activeNodeIds links <-> exists l, In l links /\ (lk_source l = x \/ lk_target l = x).
Proof.
  unfold activeNodeIds.
  cut (forall acc : gset string,
        x ∈ fold_left (fun (ids : gset string) l => {[lk_target l]} ∪ ({[lk_source l]} ∪ ids)) links acc <->
        x ∈ acc \/ exists l, In l links /\ (lk_source l = x \/ lk_target l = x)).
  { intros H. rewrite H. set_solver. }
  induction links as [|l links IH]; intros acc; simpl.
  - split; [by left|]. by intros [|(? & [] & _)].
  - rewrite IH, !elem_of_union, !elem_of_singleton. split.
    + intros [[->|[->|]]|(l' & ? & ?)]; [right; exists l; auto|right; exists l; auto|by left|].
      right. exists l'. auto.
    + intros [|(l' & [<-|Hl'] & [Hs|Ht])]; [by auto|..].
      * left. right. by left.
      * left. by left.
      * right. exists l'. auto.
      * right. exists l'. auto.
Qed.

(** Extra: with a non-empty relationship [r] selected, the component keeps
    the links of relationship [r] and exactly the nodes that are the source
    or target of one of them. *)
Theorem filteredNodes_endpoints (data : DonorMediaNetwork) (r : string) (Hr : r <> ""%string) :
  Forall (fun l => lk_relationship l = r) (filteredLinks data (Some r)) /\
  (forall n, In n (filteredNodes data (Some r)) <->
     In n (nw_nodes data) /\
     exists l, In l (nw_links data) /\ lk_relationship l = r /\
       (lk_source l = nd_id n \/ lk_target l = nd_id n)).
Proof.
  apply String.eqb_neq in Hr. split.
  - simpl. rewrite Hr. apply List.Forall_forall. intros l Hl.
    apply filter_In in Hl as [_ Hl]. by apply String.eqb_eq.
  - intros n. simpl. rewrite Hr, filter_In, bool_decide_eq_true, activeNodeIds_elem.
    simpl. try rewrite Hr. split.
    + intros [Hn (l & Hl & He)]. apply filter_In in Hl as [Hl Hrel].
      apply String.eqb_eq in Hrel. split; [done|]. by exists l.
    + intros [Hn (l & Hl & Hrel & He)]. split; [done|]. exists l.
      split; [|done]. apply filter_In. split; [done|]. by apply String.eqb_eq.
Qed.

Lemma filteredNodes_endpoints_witness :
  "funder"%string <> ""%string /\
  Forall (fun l => lk_relationship l = "funder"%string) (filteredLinks chain_abc (Some "funder"%string)) /\
  (forall n, In n (filteredNodes chain_abc (Some "funder"%string)) <->
     In n (nw_nodes chain_abc) /\
     exists l, In l (nw_links chain_abc) /\ lk_relationship l = "funder"%string /\
       (lk_source l = nd_id n \/ lk_target l = nd_id n)).
Proof.
  assert (H : "funder"%string <> ""%string) by discriminate.
  split; [exact H|]. exact (filteredNodes_endpoints chain_abc "funder" H).
Defined.

(* ------------------------------------------------------------------ *)
(** ** Node statistics by type *)

Lemma bump_type_count (t t' : NodeType) (c : list (NodeType * nat)) :
  type_count (bump_type t c) t' = (type_count c t' + if decide (t = t') then 1 else 0)%nat.
Proof.
  induction c as [|[t0 c0] c IH]; simpl.
  - destruct (decide (t = t')); lia.
  - destruct (decide (t0 = t)) as [->|Hne]; simpl.
    + destruct (decide (t = t')); lia.
    + destruct (decide (t0 = t')) as [->|]; [destruct (decide (t = t')); [congruence|lia]|].
      exact IH.
Qed.

Lemma bump_type_keys (t : NodeType) (c : list (NodeType * nat)) :
  NoDup (map fst c) -> Forall (fun e => (0 < snd e)%nat) c ->
  NoDup (map fst (bump_type t c)) /\ Forall (fun e => (0 < snd e)%nat) (bump_type t c) /\
  (forall k, In k (map fst (bump_type t c)) <-> k = t \/ In k (map fst c)).
Proof.
  induction c as [|[t0 c0] c IH]; intros Hnd Hpos; simpl.
  - split; [apply NoDup_singleton|]. split; [repeat constructor; simpl; lia|]. intros k. simpl. intuition.
  - apply NoDup_cons in Hnd as [Hk Hnd]. apply Forall_cons in Hpos as [Hp Hpos].
    destruct (decide (t0 = t)) as [->|Hne]; simpl.
    + split; [by apply NoDup_cons|]. split; [constructor; simpl; [lia|done]|].
      intros k. intuition.
    + destruct (IH Hnd Hpos) as (Hnd' & Hpos' & Hin).
      split; [|split; [by constructor|]].
      * apply NoDup_cons. split; [|done]. rewrite list_elem_of_In, Hin.
        intros [->|H]; [done|]. apply Hk. by apply list_elem_of_In.
      * intros k. rewrite Hin. intuition.
Qed.

Lemma count_fold (nm : gmap string NetworkNode) (g : NetworkLink -> string) (network : DonorMediaNetwork)
    (ls : list NetworkLink) (c : list (NodeType * nat)) (t : NodeType) :
  nm = node_map (nw_nodes network) ->
  NoDup (map fst c) -> Forall (fun e => (0 < snd e)%nat) c ->
  let res := fold_left (fun c l => match nm !! g l with
                                   | Some n => bump_type (nd_type n) c
                                   | None => c end) ls c in
  NoDup (map fst res) /\ Forall (fun e => (0 < snd e)%nat) res /\
  type_count res t = (type_count c t + length (List.filter (fun l => has_type network (g l) t) ls))%nat.
Proof.
  intros ->. cbv zeta. revert c. induction ls as [|l ls IH]; intros c Hnd Hpos; simpl; [split; [done|]; split; [done|lia]|].
  destruct (node_map (nw_nodes network) !! g l) as [n|] eqn:Hn.
  - assert (Ht : has_type network (g l) t = bool_decide (nd_type n = t))
      by (unfold has_type; by rewrite Hn).
    rewrite Ht.
    destruct (bump_type_keys (nd_type n) c Hnd Hpos) as (Hnd' & Hpos' & _).
    destruct (IH _ Hnd' Hpos') as (? & ? & ->). split; [done|]. split; [done|].
    rewrite bump_type_count. case_bool_decide; destruct (decide (nd_type n = t)); simpl;
      try congruence; lia.
  - assert (Ht : has_type network (g l) t = false) by (unfold has_type; by rewrite Hn).
    rewrite Ht. destruct (IH _ Hnd Hpos) as (? & ? & ->). done.
Qed.

Lemma length_filter_filter {A} (p q : A -> bool) (l : list A) :
  length (List.filter p (List.filter q l)) = length (List.filter (fun x => q x && p x) l).
Proof.
  induction l as [|x l IH]; simpl; [done|].
  destruct (q x); simpl; [destruct (p x); simpl|]; by rewrite IH.
Qed.

(** Extra: [connectedNodeTypes] counts, for each type, the incoming links
    whose source node has that type plus the outgoing links whose target
    node has it; its keys are distinct and every count is positive. *)
Theorem getNodeStats_connected_types (network : DonorMediaNetwork) (nodeId : string) (t : NodeType) :
  let counts := ns_connectedNodeTypes (getNodeStats network nodeId) in
  type_count counts t =
    (length (List.filter (fun l => String.eqb (lk_target l) nodeId && has_type network (lk_source l) t)
               (nw_links network)) +
     length (List.filter (fun l => String.eqb (lk_source l) nodeId && has_type network (lk_target l) t)
               (nw_links network)))%nat /\
  NoDup (map fst counts) /\ Forall (fun e => (0 < snd e)%nat) counts.
Proof.
  cbv zeta. unfold getNodeStats. cbv zeta. simpl.
  destruct (count_fold _ lk_source network
              (List.filter (fun l => String.eqb (lk_target l) nodeId) (nw_links network)) [] t
              eq_refl (NoDup_nil_2) (List.Forall_nil _)) as (Hnd1 & Hpos1 & Hc1).
  destruct (count_fold _ lk_target network
              (List.filter (fun l => String.eqb (lk_source l) nodeId) (nw_links network)) _ t
              eq_refl Hnd1 Hpos1) as (Hnd2 & Hpos2 & Hc2).
  split; [|done]. rewrite Hc2, Hc1, !length_filter_filter. simpl. lia.
Qed.

(* ------------------------------------------------------------------ *)
(** ** Force layout hook with input *)

Lemma update_first_Some nodeId f ns ns' :
  update_first nodeId f ns = Some ns' ->
  exists pre n post, ns = pre ++ n :: post /\ ns' = pre ++ f n :: post /\
    nd_id (sn_node n) = nodeId.
Proof.
  revert ns'. induction ns as [|m ns IH]; intros ns' H; simpl in H; [done|].
  destruct (String.eqb_spec (nd_id (sn_node m)) nodeId) as [Heq|Hne].
  - injection H as <-. by exists [], m, ns.
  - destruct (update_first nodeId f ns) as [r|] eqn:Hr; simpl in H; [|done].
    injection H as <-. destruct (IH r eq_refl) as (pre & n & post & -> & -> & Hn).
    by exists (m :: pre), n, post.
Qed.

Lemma update_first_found nodeId f ns :
  In nodeId (map (fun n => nd_id (sn_node n)) ns) ->
  exists ns', update_first nodeId f ns = Some ns'.
Proof.
  induction ns as [|m ns IH]; simpl; [done|]. intros Hin.
  destruct (String.eqb_spec (nd_id (sn_node m)) nodeId) as [Heq|Hne]; [by eexists|].
  destruct Hin as [Hin|Hin]; [done|].
  destruct (IH Hin) as [ns' ->]. by eexists.
Qed.

Lemma place_nodes_nodes placed inputNodes :
  map sn_node (place_nodes placed inputNodes) = inputNodes.
Proof.
  unfold place_nodes. generalize placed.
  induction inputNodes as [|n ns IH]; intros pl; [done|].
  rewrite imap_cons. simpl. f_equal. apply (IH (fun i => pl (S i))).
Qed.

Lemma length_place_nodes placed inputNodes :
  length (place_nodes placed inputNodes) = length inputNodes.
Proof. unfold place_nodes. apply length_imap. Qed.

Lemma layout_step_copies v st ev inputNodes inputLinks :
  (forall move, ev = sim_tick move -> forall n, sn_node (move n) = sn_node n) ->
  (forall sim, hs_simulationRef st = Some sim ->
     map sn_node (sim_nodes sim) = inputNodes /\ sim_links sim = inputLinks) ->
  (hs_nodes st = [] \/ map sn_node (hs_nodes st) = inputNodes) ->
  (hs_links st = [] \/ hs_links st = inputLinks) ->
  (forall sim, hs_simulationRef (layout_step v st ev) = Some sim ->
     map sn_node (sim_nodes sim) = inputNodes /\ sim_links sim = inputLinks) /\
  (hs_nodes (layout_step v st ev) = [] \/
     map sn_node (hs_nodes (layout_step v st ev)) = inputNodes) /\
  (hs_links (layout_step v st ev) = [] \/ hs_links (layout_step v st ev) = inputLinks).
Proof.
  intros Hmove Hsim Hn Hl. unfold layout_step.
  destruct (hs_simulationRef st) as [sim|] eqn:Href; [|rewrite Href; split; [intros ? [=]|tauto]].
  destruct (Hsim sim eq_refl) as [Hsn Hsl].
  destruct ev as [| |nodeId x y fixed|nodeId|move|settled|]; simpl.
  - split; [|tauto]. intros s [= <-]. done.
  - split; [|tauto]. intros s [= <-]. done.
  - destruct (update_first nodeId (place_at x y fixed) (sim_nodes sim)) as [ns|] eqn:Hu;
      [|rewrite Href; tauto].
    simpl. split; [|tauto]. intros s [= <-]. simpl. split; [|done].
    destruct (update_first_Some _ _ _ _ Hu) as (pre & n & post & Heq & -> & _).
    rewrite <- Hsn, Heq, !map_app. done.
  - destruct (update_first nodeId unfix (sim_nodes sim)) as [ns|] eqn:Hu;
      [|rewrite Href; tauto].
    simpl. split; [|tauto]. intros s [= <-]. simpl. split; [|done].
    destruct (update_first_Some _ _ _ _ Hu) as (pre & n & post & Heq & -> & _).
    rewrite <- Hsn, Heq, !map_app. done.
  - assert (Hmap : map sn_node (map move (sim_nodes sim)) = inputNodes).
    { rewrite map_map, <- Hsn. apply map_ext. intros n. by apply (Hmove move). }
    destruct (sim_running sim); [|rewrite Href; tauto].
    destruct v; simpl.
    + split; [intros s [= <-]; done|]. split; right; done.
    + split; [intros s [= <-]; done|]. tauto.
  - destruct v; [rewrite Href; tauto|].
    destruct settled; simpl; rewrite Href; tauto.
  - destruct (sim_running sim); [|rewrite Href; tauto].
    destruct v; simpl.
    + split; [intros s [= <-]; done|]. tauto.
    + split; [intros s [= <-]; done|]. tauto.
Qed.

(** Extra: as long as the simulation's ticks only move nodes, either copy
    of the hook holds in its simulation copies of the input nodes and the
    input links, and exposes as [nodes] and [links] either nothing or those
    copies. *)
Theorem useForceLayout_exposes_input_copies v inputNodes inputLinks placed evs :
  Forall (fun ev => forall move, ev = sim_tick move ->
            forall n, sn_node (move n) = sn_node n) evs ->
  let st := run_layout v inputNodes inputLinks placed evs in
  (forall sim, hs_simulationRef st = Some sim ->
     map sn_node (sim_nodes sim) = inputNodes /\ sim_links sim = inputLinks) /\
  (hs_nodes st = [] \/ map sn_node (hs_nodes st) = inputNodes) /\
  (hs_links st = [] \/ hs_links st = inputLinks).
Proof.
  intros Hevs. unfold run_layout.
  assert (H0 : let st := run_effect v inputNodes inputLinks placed initial_hook_state in
    (forall sim, hs_simulationRef st = Some sim ->
       map sn_node (sim_nodes sim) = inputNodes /\ sim_links sim = inputLinks) /\
    (hs_nodes st = [] \/ map sn_node (hs_nodes st) = inputNodes) /\
    (hs_links st = [] \/ hs_links st = inputLinks)).
  { unfold run_effect. destruct inputNodes as [|m ms]; [destruct v; simpl; split; [done| |done| ]; tauto|].
    split; [|simpl; tauto]. intros s [= <-]. split; [apply place_nodes_nodes|done]. }
  revert H0. generalize (run_effect v inputNodes inputLinks placed initial_hook_state).
  induction Hevs as [|ev evs Hev Hevs IH]; intros st Hst; simpl; [done|].
  apply IH. destruct Hst as (Hs & Hn & Hl). by apply layout_step_copies.
Qed.

Lemma useForceLayout_exposes_input_copies_witness :
  Forall (fun ev => forall move, ev = sim_tick move ->
            forall n, sn_node (move n) = sn_node n)
    [sim_tick (fun n => place_at (sn_x n + 1) (sn_y n) (sn_fixed n) n); sim_end] /\
  let st := run_layout layout_plain [mk_node "A" donor; mk_node "B" media]
              [mk_link "A" "B" 10] (fun i => (Z.of_nat i, 0))
              [sim_tick (fun n => place_at (sn_x n + 1) (sn_y n) (sn_fixed n) n); sim_end] in
  (forall sim, hs_simulationRef st = Some sim ->
     map sn_node (sim_nodes sim) = [mk_node "A" donor; mk_node "B" media] /\
     sim_links sim = [mk_link "A" "B" 10]) /\
  (hs_nodes st = [] \/ map sn_node (hs_nodes st) = [mk_node "A" donor; mk_node "B" media]) /\
  (hs_links st = [] \/ hs_links st = [mk_link "A" "B" 10]).
Proof.
  assert (H : Forall (fun ev => forall move, ev = sim_tick move ->
            forall n, sn_node (move n) = sn_node n)
    [sim_tick (fun n => place_at (sn_x n + 1) (sn_y n) (sn_fixed n) n); sim_end]).
  { repeat constructor; intros move Hm; [injection Hm as <-; reflexivity|discriminate]. }
  split; [exact H|].
  exact (useForceLayout_exposes_input_copies layout_plain _ _ _ _ H).
Defined.

Lemma run_layout_sim v inputNodes inputLinks placed evs :
  inputNodes <> [] ->
  exists sim, hs_simulationRef (run_layout v inputNodes inputLinks placed evs) = Some sim /\
    length (sim_nodes sim) = length inputNodes /\ sim_links sim = inputLinks.
Proof.
  intros Hne. unfold run_layout.
  assert (H0 : exists sim, hs_simulationRef (run_effect v inputNodes inputLinks placed initial_hook_state) = Some sim /\
    length (sim_nodes sim) = length inputNodes /\ sim_links sim = inputLinks).
  { unfold run_effect. destruct inputNodes as [|m ms]; [done|].
    eexists; split; [reflexivity|]. split; [apply length_place_nodes|done]. }
  revert H0. generalize (run_effect v inputNodes inputLinks placed initial_hook_state).
  induction evs as [|ev evs IH]; intros st (sim & Href & Hlen & Hl); simpl; [eauto|].
  apply IH. unfold layout_step. rewrite Href.
  destruct ev as [| |nodeId x y fixed|nodeId|move|settled|]; simpl.
  - by eexists.
  - by eexists.
  - destruct (update_first nodeId (place_at x y fixed) (sim_nodes sim)) as [ns|] eqn:Hu; [|by eexists].
    destruct (update_first_Some _ _ _ _ Hu) as (pre & n & post & Heq & -> & _).
    eexists; split; [reflexivity|]. simpl. split; [|done].
    rewrite <- Hlen, Heq, !length_app. done.
  - destruct (update_first nodeId unfix (sim_nodes sim)) as [ns|] eqn:Hu; [|by eexists].
    destruct (update_first_Some _ _ _ _ Hu) as (pre & n & post & Heq & -> & _).
    eexists; split; [reflexivity|]. simpl. split; [|done].
    rewrite <- Hlen, Heq, !length_app. done.
  - destruct (sim_running sim); [|by eexists].
    destruct v; simpl; (eexists; split; [reflexivity|]); simpl; by rewrite length_map.
  - destruct v; [by eexists|]. destruct settled; simpl; by eexists.
  - destruct (sim_running sim); [|by eexists]. destruct v; simpl; by eexists.
Qed.

(** Extra: when the input of [src/src/components/d3/useForceLayout.ts]
    turns from non-empty to empty, [nodes] and [links] become empty, but the
    stopped simulation stays in [simulationRef]: [restartSimulation] and a
    tick expose its nodes and links again, with [isSimulating] true. *)
Theorem useForceLayout_plain_restart_after_empty inputNodes inputLinks placed evs
    links' placed' move :
  inputNodes <> [] ->
  let st1 := run_layout layout_plain inputNodes inputLinks placed evs in
  let st2 := run_effect layout_plain [] links' placed' (effect_cleanup st1) in
  let st3 := fold_left (layout_step layout_plain) [restartSimulation; sim_tick move] st2 in
  hs_nodes st2 = [] /\ hs_links st2 = [] /\
  hs_isSimulating st3 = true /\ length (hs_nodes st3) = length inputNodes /\
  hs_links st3 = inputLinks.
Proof.
  intros Hne. cbv zeta.
  destruct (run_layout_sim layout_plain inputNodes inputLinks placed evs Hne)
    as (sim & Href & Hlen & Hl).
  unfold effect_cleanup. rewrite Href. simpl.
  split; [done|]. split; [done|]. split; [done|].
  simpl. rewrite length_map. done.
Qed.

Lemma useForceLayout_plain_restart_after_empty_witness :
  [mk_node "A" donor] <> [] /\
  let st1 := run_layout layout_plain [mk_node "A" donor] [] (fun _ => (0, 0)) [sim_end] in
  let st2 := run_effect layout_plain [] [] (fun _ => (0, 0)) (effect_cleanup st1) in
  let st3 := fold_left (layout_step layout_plain) [restartSimulation; sim_tick (fun n => n)] st2 in
  hs_nodes st2 = [] /\ hs_links st2 = [] /\
  hs_isSimulating st3 = true /\ length (hs_nodes st3) = length [mk_node "A" donor] /\
  hs_links st3 = [].
Proof.
  split; [discriminate|].
  exact (useForceLayout_plain_restart_after_empty [mk_node "A" donor] [] (fun _ => (0, 0))
           [sim_end] [] (fun _ => (0, 0)) (fun n => n) ltac:(discriminate)).
Defined.

(** Extra: when the input of the throttled copy in [src/unnamed/part_005]
    turns empty, [nodes], [links] and [isSimulating] keep their previous
    values whatever callback is called afterwards. *)
Theorem useForceLayout_throttled_keeps_view_after_empty inputNodes inputLinks placed evs
    links' placed' evs' :
  let st1 := run_layout layout_throttled inputNodes inputLinks placed evs in
  let st := fold_left (layout_step layout_throttled) evs'
              (run_effect layout_throttled [] links' placed' (effect_cleanup st1)) in
  hs_nodes st = hs_nodes st1 /\ hs_links st = hs_links st1 /\
  hs_isSimulating st = hs_isSimulating st1.
Proof.
  cbv zeta. rewrite layout_no_simulation by reflexivity.
  unfold effect_cleanup. destruct (hs_simulationRef _); simpl; auto.
Qed.

(** Extra: [setNodePosition] on a node of the simulation places that node
    (fixed or not) in the simulation and restarts it, but leaves
    [isSimulating] as it was: after [stopSimulation], a drag makes the
    simulation run again while [isSimulating] stays [false]. *)
Theorem setNodePosition_spec v st sim nodeId x y fixed :
  hs_simulationRef st = Some sim ->
  In nodeId (map (fun n => nd_id (sn_node n)) (sim_nodes sim)) ->
  (let st' := layout_step v st (setNodePosition nodeId x y fixed) in
   hs_isSimulating st' = hs_isSimulating st /\
   exists sim' pre n post,
     hs_simulationRef st' = Some sim' /\ sim_running sim' = true /\
     sim_links sim' = sim_links sim /\
     sim_nodes sim = pre ++ n :: post /\ nd_id (sn_node n) = nodeId /\
     sim_nodes sim' = pre ++ place_at x y fixed n :: post) /\
  (let st'' := layout_step v (layout_step v st stopSimulation)
                 (setNodePosition nodeId x y fixed) in
   hs_isSimulating st'' = false /\
   exists sim'', hs_simulationRef st'' = Some sim'' /\ sim_running sim'' = true).
Proof.
  intros Href Hin. cbv zeta.
  destruct (update_first_found nodeId (place_at x y fixed) _ Hin) as [ns Hu].
  destruct (update_first_Some _ _ _ _ Hu) as (pre & n & post & Heq & Hns & Hid).
  split.
  - unfold layout_step. rewrite Href, Hu. simpl. split; [done|].
    exists (set_running (set_sim_nodes sim ns) true), pre, n, post. simpl. done.
  - unfold layout_step. rewrite Href. simpl. rewrite Hu. simpl.
    split; [done|]. by eexists.
Qed.

Lemma setNodePosition_spec_witness :
  hs_simulationRef (run_layout layout_plain [mk_node "A" donor] [] (fun _ => (0, 0)) [])
    = Some sim_A /\
  In "A"%string (map (fun n => nd_id (sn_node n)) (sim_nodes sim_A)) /\
  (let st' := layout_step layout_plain
                (run_layout layout_plain [mk_node "A" donor] [] (fun _ => (0, 0)) [])
                (setNodePosition "A" 5 7 true) in
   hs_isSimulating st' = hs_isSimulating
     (run_layout layout_plain [mk_node "A" donor] [] (fun _ => (0, 0)) []) /\
   exists sim' pre n post,
     hs_simulationRef st' = Some sim' /\ sim_running sim' = true /\
     sim_links sim' = sim_links sim_A /\
     sim_nodes sim_A = pre ++ n :: post /\ nd_id (sn_node n) = "A"%string /\
     sim_nodes sim' = pre ++ place_at 5 7 true n :: post) /\
  (let st'' := layout_step layout_plain
                 (layout_step layout_plain
                    (run_layout layout_plain [mk_node "A" donor] [] (fun _ => (0, 0)) [])
                    stopSimulation)
                 (setNodePosition "A" 5 7 true) in
   hs_isSimulating st'' = false /\
   exists sim'', hs_simulationRef st'' = Some sim'' /\ sim_running sim'' = true).
Proof.
  assert (Href : hs_simulationRef (run_layout layout_plain [mk_node "A" donor] [] (fun _ => (0, 0)) [])
    = Some sim_A) by reflexivity.
  assert (Hin : In "A"%string (map (fun n => nd_id (sn_node n)) (sim_nodes sim_A)))
    by (simpl; left; reflexivity).
  split; [exact Href|]. split; [exact Hin|].
  exact (setNodePosition_spec layout_plain _ _ "A" 5 7 true Href Hin).
Defined.
